(** * CodeSphere: the session page's synchronisation and signalling handlers

    A shallow embedding of [frontend/src/pages/SessionPage.jsx]: the React
    component's refs and state hooks become one record, every handler of the
    component becomes a function in a small state-and-exception monad, and
    every call that leaves the component (the socket, the peer connection,
    the media devices, timers, toasts, the console) is recorded, in program
    order, in a trace.

    The results of the browser's asynchronous operations are not decided by
    the component; a handler receives them in a [Platform] record, and the
    theorems quantify over it.  A handler that awaits is run to completion:
    interleaving of other events at its suspension points is not modelled. *)

From Stdlib Require Import String Ascii List Bool Arith NArith Lia.
Import ListNotations.
Open Scope string_scope.
Open Scope list_scope.

Set Implicit Arguments.

(** ** Data *)

(** Exceptions the browser raises (DOMException names), the TypeError of
    a call or a property read through [null], and the SyntaxError of
    [JSON.parse]. *)
Inductive Exn : Type :=
| InvalidStateError
| MediaAccessError
| OperationError
| TypeError
| SyntaxError.

Inductive Result (A : Type) : Type :=
| Ok (a : A)
| Throw (e : Exn).
Arguments Throw {A} e.

(** A session description and an ICE candidate are opaque to the page (both
    are objects in the browser, hence truthy whenever present). *)
Definition SDP := string.
Definition Candidate := string.

Record Participant : Type := mkParticipant {
  p_userId : string;
  p_username : string
}.

(** What the page passes to [ws.send] (after [JSON.stringify]). *)
Inductive Outbound : Type :=
| OJoin (uid uname sid : string)
| OCodeChange (text uid sid : string)
| OLanguageChange (lang uid sid : string)
| OWebrtcOffer (offer : SDP) (uid sid : string)
| OWebrtcAnswer (answer : SDP) (uid sid : string)
| OWebrtcIce (candidate : Candidate) (uid sid : string).

(** What [ws.onmessage] hands to [handleWebSocketMessage] (after
    [JSON.parse]).  A field the handler tests for truthiness before use is an
    [option]: [None] is an absent or [null] field. *)
Inductive Inbound : Type :=
| CodeChange (text uid : string)
| LanguageChange (lang uid : string)
| ParticipantsUpdate (ps : option (list Participant))
| SessionState (text lang : option string) (ps : option (list Participant))
| WebrtcOffer (offer : SDP) (uid : string)
| WebrtcAnswer (answer : SDP) (uid : string)
| WebrtcIce (candidate : option Candidate) (uid : string)
| UserJoined (uname : option string)
| UserLeft (uname : option string)
| OtherType (type : string).

(** [WebSocket.readyState]. *)
Inductive ReadyState : Type := CONNECTING | OPEN | CLOSING | CLOSED.

Record WebSocket : Type := mkWebSocket {
  readyState : ReadyState;
  sent : list Outbound          (* frames handed to the transport, oldest first *)
}.

Inductive TrackKind : Type := VideoTrack | AudioTrack.

Record MediaTrack : Type := mkTrack {
  kind : TrackKind;
  label : string;
  ended : bool                  (* [track.stop()] has been called *)
}.

Record MediaStream : Type := mkStream {
  stream_id : nat;
  tracks : list MediaTrack
}.

(** A [<video>] element; [srcObject] refers to a stream by its identity. *)
Record VideoElement : Type := mkVideo {
  srcObject : option nat
}.

Record PeerConnection : Type := mkPC {
  remoteDescription : option SDP;
  localDescription : option SDP;
  candidates : list Candidate;  (* accepted by [addIceCandidate] *)
  senders : list MediaTrack;    (* accepted by [addTrack] *)
  pc_closed : bool
}.

Inductive ToastKind : Type := ToastSuccess | ToastError | ToastInfo.

(** The one callback the page ever schedules: clear the suppression flag. *)
Inductive Timer : Type :=
| ClearRemoteChange (ms : nat).

(** Calls and writes of a handler, in program order. *)
Inductive Event : Type :=
| EvSetRemoteChange (b : bool)            (* isRemoteChangeRef.current = b *)
| EvSetCode (text : string)
| EvSetLanguage (lang : string)
| EvSetParticipants (ps : list Participant)
| EvSetIsVideoOn (b : bool)
| EvSetIsAudioOn (b : bool)
| EvSetIsConnected (b : bool)
| EvSetTimeout (ms : nat)
| EvToast (k : ToastKind) (text : string)
| EvConsoleError (e : Exn)
| EvUnhandledRejection (e : Exn)
| EvWsSend (m : Outbound)                 (* ws.send was called *)
| EvGetUserMedia (video audio : bool)
| EvTrackStop (t : MediaTrack)
| EvNewPeerConnection
| EvPcClose
| EvAddTrack (t : MediaTrack)
| EvCreateOffer
| EvCreateAnswer
| EvSetLocalDescription (d : SDP)
| EvSetRemoteDescription (d : SDP)
| EvAddIceCandidate (c : Candidate).

(** The component: refs, state hooks, the route parameter, pending timers and
    the trace. *)
Record State : Type := mkState {
  editorRef : option nat;
  wsRef : option WebSocket;
  localVideoRef : option VideoElement;
  remoteVideoRef : option VideoElement;
  peerConnectionRef : option PeerConnection;
  localStreamRef : option MediaStream;
  isRemoteChangeRef : bool;
  code : string;
  language : string;
  participants : list Participant;
  isVideoOn : bool;
  isAudioOn : bool;
  isConnected : bool;
  userId : string;
  username : string;
  sessionId : string;
  timers : list Timer;
  trace : list Event
}.

(** Outcomes of the browser operations a handler awaits or calls. *)
Record Platform : Type := mkPlatform {
  plat_getUserMedia : bool -> bool -> Result MediaStream;
  plat_createOffer : Result SDP;
  plat_createAnswer : Result SDP;
  plat_setLocalDescription : SDP -> Result unit;
  plat_setRemoteDescription : SDP -> Result unit;
  plat_addIceCandidate : Candidate -> Result unit;
  plat_addTrack : MediaTrack -> Result unit
}.

Definition DEFAULT_CODE : string :=
  "// Welcome to CodeSphere! 🚀
// Start coding collaboratively

function greet(name) {
  return `Hello, ${name}! Welcome to the session.`;
}

console.log(greet('Developer'));
".

(** ** Field updates *)

Definition set_editorRef (v : option nat) (s : State) : State :=
  mkState v (wsRef s) (localVideoRef s) (remoteVideoRef s) (peerConnectionRef s)
    (localStreamRef s) (isRemoteChangeRef s) (code s) (language s) (participants s)
    (isVideoOn s) (isAudioOn s) (isConnected s) (userId s) (username s) (sessionId s)
    (timers s) (trace s).

Definition set_wsRef (v : option WebSocket) (s : State) : State :=
  mkState (editorRef s) v (localVideoRef s) (remoteVideoRef s) (peerConnectionRef s)
    (localStreamRef s) (isRemoteChangeRef s) (code s) (language s) (participants s)
    (isVideoOn s) (isAudioOn s) (isConnected s) (userId s) (username s) (sessionId s)
    (timers s) (trace s).

Definition set_localVideoRef (v : option VideoElement) (s : State) : State :=
  mkState (editorRef s) (wsRef s) v (remoteVideoRef s) (peerConnectionRef s)
    (localStreamRef s) (isRemoteChangeRef s) (code s) (language s) (participants s)
    (isVideoOn s) (isAudioOn s) (isConnected s) (userId s) (username s) (sessionId s)
    (timers s) (trace s).

Definition set_remoteVideoRef (v : option VideoElement) (s : State) : State :=
  mkState (editorRef s) (wsRef s) (localVideoRef s) v (peerConnectionRef s)
    (localStreamRef s) (isRemoteChangeRef s) (code s) (language s) (participants s)
    (isVideoOn s) (isAudioOn s) (isConnected s) (userId s) (username s) (sessionId s)
    (timers s) (trace s).

Definition set_peerConnectionRef (v : option PeerConnection) (s : State) : State :=
  mkState (editorRef s) (wsRef s) (localVideoRef s) (remoteVideoRef s) v
    (localStreamRef s) (isRemoteChangeRef s) (code s) (language s) (participants s)
    (isVideoOn s) (isAudioOn s) (isConnected s) (userId s) (username s) (sessionId s)
    (timers s) (trace s).

Definition set_localStreamRef (v : option MediaStream) (s : State) : State :=
  mkState (editorRef s) (wsRef s) (localVideoRef s) (remoteVideoRef s) (peerConnectionRef s)
    v (isRemoteChangeRef s) (code s) (language s) (participants s)
    (isVideoOn s) (isAudioOn s) (isConnected s) (userId s) (username s) (sessionId s)
    (timers s) (trace s).

Definition set_isRemoteChangeRef (v : bool) (s : State) : State :=
  mkState (editorRef s) (wsRef s) (localVideoRef s) (remoteVideoRef s) (peerConnectionRef s)
    (localStreamRef s) v (code s) (language s) (participants s)
    (isVideoOn s) (isAudioOn s) (isConnected s) (userId s) (username s) (sessionId s)
    (timers s) (trace s).

Definition set_code (v : string) (s : State) : State :=
  mkState (editorRef s) (wsRef s) (localVideoRef s) (remoteVideoRef s) (peerConnectionRef s)
    (localStreamRef s) (isRemoteChangeRef s) v (language s) (participants s)
    (isVideoOn s) (isAudioOn s) (isConnected s) (userId s) (username s) (sessionId s)
    (timers s) (trace s).

Definition set_language (v : string) (s : State) : State :=
  mkState (editorRef s) (wsRef s) (localVideoRef s) (remoteVideoRef s) (peerConnectionRef s)
    (localStreamRef s) (isRemoteChangeRef s) (code s) v (participants s)
    (isVideoOn s) (isAudioOn s) (isConnected s) (userId s) (username s) (sessionId s)
    (timers s) (trace s).

Definition set_participants (v : list Participant) (s : State) : State :=
  mkState (editorRef s) (wsRef s) (localVideoRef s) (remoteVideoRef s) (peerConnectionRef s)
    (localStreamRef s) (isRemoteChangeRef s) (code s) (language s) v
    (isVideoOn s) (isAudioOn s) (isConnected s) (userId s) (username s) (sessionId s)
    (timers s) (trace s).

Definition set_isVideoOn (v : bool) (s : State) : State :=
  mkState (editorRef s) (wsRef s) (localVideoRef s) (remoteVideoRef s) (peerConnectionRef s)
    (localStreamRef s) (isRemoteChangeRef s) (code s) (language s) (participants s)
    v (isAudioOn s) (isConnected s) (userId s) (username s) (sessionId s)
    (timers s) (trace s).

Definition set_isAudioOn (v : bool) (s : State) : State :=
  mkState (editorRef s) (wsRef s) (localVideoRef s) (remoteVideoRef s) (peerConnectionRef s)
    (localStreamRef s) (isRemoteChangeRef s) (code s) (language s) (participants s)
    (isVideoOn s) v (isConnected s) (userId s) (username s) (sessionId s)
    (timers s) (trace s).

Definition set_isConnected (v : bool) (s : State) : State :=
  mkState (editorRef s) (wsRef s) (localVideoRef s) (remoteVideoRef s) (peerConnectionRef s)
    (localStreamRef s) (isRemoteChangeRef s) (code s) (language s) (participants s)
    (isVideoOn s) (isAudioOn s) v (userId s) (username s) (sessionId s)
    (timers s) (trace s).

Definition set_timers (v : list Timer) (s : State) : State :=
  mkState (editorRef s) (wsRef s) (localVideoRef s) (remoteVideoRef s) (peerConnectionRef s)
    (localStreamRef s) (isRemoteChangeRef s) (code s) (language s) (participants s)
    (isVideoOn s) (isAudioOn s) (isConnected s) (userId s) (username s) (sessionId s)
    v (trace s).

Definition set_trace (v : list Event) (s : State) : State :=
  mkState (editorRef s) (wsRef s) (localVideoRef s) (remoteVideoRef s) (peerConnectionRef s)
    (localStreamRef s) (isRemoteChangeRef s) (code s) (language s) (participants s)
    (isVideoOn s) (isAudioOn s) (isConnected s) (userId s) (username s) (sessionId s)
    (timers s) v.


(** ** The handler monad: state, plus an exception that keeps the state *)

Definition M (A : Type) : Type := State -> Result A * State.

Definition ret {A : Type} (a : A) : M A := fun s => (Ok a, s).

Definition bind {A B : Type} (m : M A) (k : A -> M B) : M B :=
  fun s =>
    match m s with
    | (Ok a, s') => k a s'
    | (Throw e, s') => (Throw e, s')
    end.

Definition throw {A : Type} (e : Exn) : M A := fun s => (Throw e, s).

(** [try { m } catch (err) { h err }] *)
Definition try_catch {A : Type} (m : M A) (h : Exn -> M A) : M A :=
  fun s =>
    match m s with
    | (Ok a, s') => (Ok a, s')
    | (Throw e, s') => h e s'
    end.

Definition get : M State := fun s => (Ok s, s).

Definition modify (f : State -> State) : M unit := fun s => (Ok tt, f s).

Definition emit (e : Event) : M unit :=
  modify (fun s => set_trace (trace s ++ [e]) s).

Declare Scope handler_scope.
Delimit Scope handler_scope with handler.
Notation "x <- m ;; k" := (bind m (fun x => k))
  (at level 61, m at next level, right associativity) : handler_scope.
Notation "m ;; k" := (bind m (fun _ => k))
  (at level 61, right associativity) : handler_scope.
Open Scope handler_scope.

(** Calling an async function without awaiting it: a rejection does not
    reach the caller, it becomes an unhandled rejection. *)
Definition detach (m : M unit) : M unit :=
  try_catch m (fun e => emit (EvUnhandledRejection e)).

(** Lifting an outcome supplied by the platform. *)
Definition lift {A : Type} (r : Result A) : M A :=
  match r with
  | Ok a => ret a
  | Throw e => throw e
  end.

Fixpoint forEach {A : Type} (l : list A) (f : A -> M unit) : M unit :=
  match l with
  | [] => ret tt
  | x :: l' => f x ;; forEach l' f
  end.

(** The final state and the result of running a handler. *)
Definition exec {A : Type} (m : M A) (s : State) : State := snd (m s).
Definition eval {A : Type} (m : M A) (s : State) : Result A := fst (m s).

(** ** Primitive operations *)

(** JavaScript truthiness of an optional string: absent, [null] and the
    empty string are falsy. *)
Definition truthy (o : option string) : bool :=
  match o with
  | Some v => negb (v =? "")
  | None => false
  end.

Definition is_some {A : Type} (o : option A) : bool :=
  match o with Some _ => true | None => false end.

Definition is_open (r : ReadyState) : bool :=
  match r with OPEN => true | _ => false end.

Definition setRemoteChange (b : bool) : M unit :=
  emit (EvSetRemoteChange b) ;; modify (set_isRemoteChangeRef b).

Definition setCode (v : string) : M unit :=
  emit (EvSetCode v) ;; modify (set_code v).

Definition setLanguage (v : string) : M unit :=
  emit (EvSetLanguage v) ;; modify (set_language v).

Definition setParticipants (v : list Participant) : M unit :=
  emit (EvSetParticipants v) ;; modify (set_participants v).

Definition setIsVideoOn (b : bool) : M unit :=
  emit (EvSetIsVideoOn b) ;; modify (set_isVideoOn b).

Definition setIsAudioOn (b : bool) : M unit :=
  emit (EvSetIsAudioOn b) ;; modify (set_isAudioOn b).

Definition setIsConnected (b : bool) : M unit :=
  emit (EvSetIsConnected b) ;; modify (set_isConnected b).

Definition toast (k : ToastKind) (text : string) : M unit :=
  emit (EvToast k text).

Definition consoleError (e : Exn) : M unit :=
  emit (EvConsoleError e).

(** [setTimeout(() => { isRemoteChangeRef.current = false; }, ms)] *)
Definition setTimeout (ms : nat) : M unit :=
  emit (EvSetTimeout ms) ;;
  modify (fun s => set_timers (timers s ++ [ClearRemoteChange ms]) s).

(** The browser's [WebSocket.send]: it throws an InvalidStateError while
    the socket is CONNECTING, hands the data to the transport when OPEN, and
    discards it without an error when CLOSING or CLOSED. *)
Definition ws_send (m : Outbound) : M unit :=
  emit (EvWsSend m) ;;
  s <- get ;;
  match wsRef s with
  | None => throw TypeError
  | Some ws =>
      match readyState ws with
      | CONNECTING => throw InvalidStateError
      | OPEN => modify (set_wsRef (Some (mkWebSocket OPEN (sent ws ++ [m]))))
      | CLOSING | CLOSED => ret tt
      end
  end.

(** [if (wsRef.current?.readyState === WebSocket.OPEN) wsRef.current.send(m)] *)
Definition send_if_open (m : Outbound) : M unit :=
  s <- get ;;
  match wsRef s with
  | Some ws => if is_open (readyState ws) then ws_send m else ret tt
  | None => ret tt
  end.

(** [wsRef.current?.send(m)] *)
Definition send_if_present (m : Outbound) : M unit :=
  s <- get ;;
  match wsRef s with
  | Some _ => ws_send m
  | None => ret tt
  end.

(** A method call on [peerConnectionRef.current]. *)
Definition with_pc {A : Type} (k : PeerConnection -> M A) : M A :=
  s <- get ;;
  match peerConnectionRef s with
  | Some pc => k pc
  | None => throw TypeError
  end.

Definition update_pc (f : PeerConnection -> PeerConnection) : M unit :=
  modify (fun s => set_peerConnectionRef (option_map f (peerConnectionRef s)) s).

Definition pc_setRemoteDescription (P : Platform) (d : SDP) : M unit :=
  with_pc (fun _ =>
    emit (EvSetRemoteDescription d) ;;
    lift (plat_setRemoteDescription P d) ;;
    update_pc (fun pc => mkPC (Some d) (localDescription pc) (candidates pc)
                              (senders pc) (pc_closed pc))).

Definition pc_setLocalDescription (P : Platform) (d : SDP) : M unit :=
  with_pc (fun _ =>
    emit (EvSetLocalDescription d) ;;
    lift (plat_setLocalDescription P d) ;;
    update_pc (fun pc => mkPC (remoteDescription pc) (Some d) (candidates pc)
                              (senders pc) (pc_closed pc))).

Definition pc_createOffer (P : Platform) : M SDP :=
  with_pc (fun _ => emit EvCreateOffer ;; lift (plat_createOffer P)).

Definition pc_createAnswer (P : Platform) : M SDP :=
  with_pc (fun _ => emit EvCreateAnswer ;; lift (plat_createAnswer P)).

Definition pc_addIceCandidate (P : Platform) (c : Candidate) : M unit :=
  with_pc (fun _ =>
    emit (EvAddIceCandidate c) ;;
    lift (plat_addIceCandidate P c) ;;
    update_pc (fun pc => mkPC (remoteDescription pc) (localDescription pc)
                              (candidates pc ++ [c]) (senders pc) (pc_closed pc))).

Definition pc_addTrack (P : Platform) (t : MediaTrack) : M unit :=
  with_pc (fun _ =>
    emit (EvAddTrack t) ;;
    lift (plat_addTrack P t) ;;
    update_pc (fun pc => mkPC (remoteDescription pc) (localDescription pc)
                              (candidates pc) (senders pc ++ [t]) (pc_closed pc))).

(** [peerConnectionRef.current?.addTrack(track, stream)] *)
Definition pc_addTrack_if_present (P : Platform) (t : MediaTrack) : M unit :=
  s <- get ;;
  if is_some (peerConnectionRef s) then pc_addTrack P t else ret tt.

Definition getUserMedia (P : Platform) (video audio : bool) : M MediaStream :=
  emit (EvGetUserMedia video audio) ;; lift (plat_getUserMedia P video audio).

Definition is_video (t : MediaTrack) : bool :=
  match kind t with VideoTrack => true | AudioTrack => false end.

Definition is_audio (t : MediaTrack) : bool :=
  match kind t with AudioTrack => true | VideoTrack => false end.

Definition stop (t : MediaTrack) : MediaTrack := mkTrack (kind t) (label t) true.

(** [localStreamRef.current?.getXTracks().forEach(track => track.stop())] *)
Definition stopLocalTracks (sel : MediaTrack -> bool) : M unit :=
  s <- get ;;
  match localStreamRef s with
  | None => ret tt
  | Some st =>
      forEach (filter sel (tracks st)) (fun t => emit (EvTrackStop t)) ;;
      modify (set_localStreamRef
                (Some (mkStream (stream_id st)
                         (map (fun t => if sel t then stop t else t) (tracks st)))))
  end.

(** [if (localVideoRef.current) localVideoRef.current.srcObject = v] *)
Definition setLocalVideoSrc (v : option nat) : M unit :=
  s <- get ;;
  match localVideoRef s with
  | Some _ => modify (set_localVideoRef (Some (mkVideo v)))
  | None => ret tt
  end.

(** ** The handlers of [SessionPage] *)

(** [ws.onopen] *)
Definition onopen : M unit :=
  s <- get ;;
  setIsConnected true ;;
  toast ToastSuccess "Connected to session" ;;
  ws_send (OJoin (userId s) (username s) (sessionId s)).

(** [ws.onclose] *)
Definition onclose : M unit :=
  setIsConnected false ;;
  toast ToastError "Disconnected from session".

(** [ws.onerror] *)
Definition onerror : M unit :=
  toast ToastError "Connection error".

Definition initWebRTC : M unit :=
  emit EvNewPeerConnection ;;
  modify (set_peerConnectionRef (Some (mkPC None None [] [] false))).

(** [peerConnectionRef.current.onicecandidate], with [event.candidate]. *)
Definition onicecandidate (candidate : option Candidate) : M unit :=
  s <- get ;;
  match candidate with
  | Some c => send_if_open (OWebrtcIce c (userId s) (sessionId s))
  | None => ret tt
  end.

(** [peerConnectionRef.current.ontrack], with [event.streams]. *)
Definition ontrack (streams : list MediaStream) : M unit :=
  s <- get ;;
  match remoteVideoRef s with
  | Some _ =>
      modify (set_remoteVideoRef
                (Some (mkVideo (option_map stream_id (hd_error streams)))))
  | None => ret tt
  end.

Definition handleOffer (P : Platform) (offer : SDP) : M unit :=
  s <- get ;;
  (if is_some (peerConnectionRef s) then ret tt else initWebRTC) ;;
  pc_setRemoteDescription P offer ;;
  answer <- pc_createAnswer P ;;
  pc_setLocalDescription P answer ;;
  send_if_present (OWebrtcAnswer answer (userId s) (sessionId s)).

Definition handleAnswer (P : Platform) (answer : SDP) : M unit :=
  s <- get ;;
  if is_some (peerConnectionRef s)
  then pc_setRemoteDescription P answer
  else ret tt.

Definition handleIceCandidate (P : Platform) (candidate : option Candidate) : M unit :=
  s <- get ;;
  match peerConnectionRef s, candidate with
  | Some _, Some c => pc_addIceCandidate P c
  | _, _ => ret tt
  end.

Definition someone (uname : option string) : string :=
  match uname with
  | Some n => if truthy uname then n else "Someone"
  | None => "Someone"
  end.

Definition handleWebSocketMessage (P : Platform) (data : Inbound) : M unit :=
  s <- get ;;
  match data with
  | CodeChange text uid =>
      if negb (uid =? userId s) && is_some (editorRef s) then
        setRemoteChange true ;;
        setCode text ;;
        setTimeout 50
      else ret tt
  | LanguageChange lang uid =>
      if negb (uid =? userId s) then setLanguage lang else ret tt
  | ParticipantsUpdate ps =>
      setParticipants (match ps with Some l => l | None => [] end)
  | SessionState text lang ps =>
      (match text with
       | Some c =>
           if truthy text then
             setRemoteChange true ;;
             setCode c ;;
             setTimeout 50
           else ret tt
       | None => ret tt
       end) ;;
      (match lang with
       | Some l => if truthy lang then setLanguage l else ret tt
       | None => ret tt
       end) ;;
      (match ps with
       | Some l => setParticipants l
       | None => ret tt
       end)
  | WebrtcOffer offer _ => detach (handleOffer P offer)
  | WebrtcAnswer answer _ => detach (handleAnswer P answer)
  | WebrtcIce candidate _ => detach (handleIceCandidate P candidate)
  | UserJoined uname => toast ToastInfo (someone uname ++ " joined")
  | UserLeft uname => toast ToastInfo (someone uname ++ " left")
  | OtherType _ => ret tt
  end.

Definition handleEditorChange (value : string) : M unit :=
  s <- get ;;
  if isRemoteChangeRef s then ret tt
  else
    setCode value ;;
    send_if_open (OCodeChange value (userId s) (sessionId s)).

Definition handleLanguageChange (newLanguage : string) : M unit :=
  s <- get ;;
  setLanguage newLanguage ;;
  send_if_open (OLanguageChange newLanguage (userId s) (sessionId s)).

Definition toggleVideo (P : Platform) : M unit :=
  try_catch
    (s <- get ;;
     if isVideoOn s then
       stopLocalTracks is_video ;;
       setLocalVideoSrc None ;;
       setIsVideoOn false
     else
       stream <- getUserMedia P true (isAudioOn s) ;;
       modify (set_localStreamRef (Some stream)) ;;
       setLocalVideoSrc (Some (stream_id stream)) ;;
       setIsVideoOn true ;;
       s1 <- get ;;
       (if is_some (peerConnectionRef s1) then ret tt else initWebRTC) ;;
       forEach (tracks stream) (pc_addTrack_if_present P) ;;
       offer <- pc_createOffer P ;;
       pc_setLocalDescription P offer ;;
       send_if_present (OWebrtcOffer offer (userId s) (sessionId s)))
    (fun err =>
       toast ToastError "Failed to access camera" ;;
       consoleError err).

Definition toggleAudio (P : Platform) : M unit :=
  try_catch
    (s <- get ;;
     if isAudioOn s then
       stopLocalTracks is_audio ;;
       setIsAudioOn false
     else
       (match localStreamRef s with
        | None =>
            stream <- getUserMedia P false true ;;
            modify (set_localStreamRef (Some stream))
        | Some st =>
            audioStream <- getUserMedia P false true ;;
            modify (set_localStreamRef
                      (Some (mkStream (stream_id st)
                               (tracks st ++ filter is_audio (tracks audioStream)))))
        end) ;;
       setIsAudioOn true)
    (fun err =>
       toast ToastError "Failed to access microphone" ;;
       consoleError err).

Definition cleanupMedia : M unit :=
  s <- get ;;
  (match localStreamRef s with
   | Some st =>
       forEach (tracks st) (fun t => emit (EvTrackStop t)) ;;
       modify (set_localStreamRef (Some (mkStream (stream_id st) (map stop (tracks st)))))
   | None => ret tt
   end) ;;
  match peerConnectionRef s with
  | Some _ =>
      emit EvPcClose ;;
      update_pc (fun pc => mkPC (remoteDescription pc) (localDescription pc)
                                (candidates pc) (senders pc) true)
  | None => ret tt
  end.

Definition handleEditorMount (editor : nat) : M unit :=
  modify (set_editorRef (Some editor)).

(** A pending timeout fires: its callback clears the suppression flag. *)
Definition fireTimer : M unit :=
  s <- get ;;
  match timers s with
  | ClearRemoteChange _ :: rest =>
      modify (set_timers rest) ;;
      setRemoteChange false
  | [] => ret tt
  end.

(** The component as first rendered, once the socket effect has run. *)
Definition initial (uid uname sid : string) : State :=
  mkState None (Some (mkWebSocket CONNECTING [])) (Some (mkVideo None))
    (Some (mkVideo None)) None None false DEFAULT_CODE "javascript" []
    false false false uid uname sid [] [].

(** A platform on which every operation succeeds. *)
Definition camera : MediaStream :=
  mkStream 1 [mkTrack VideoTrack "camera" false].

Definition microphone : MediaStream :=
  mkStream 2 [mkTrack AudioTrack "microphone" false].

Definition willing : Platform :=
  mkPlatform
    (fun video _ => Ok (if video then camera else microphone))
    (Ok "sdp-offer") (Ok "sdp-answer")
    (fun _ => Ok tt) (fun _ => Ok tt) (fun _ => Ok tt) (fun _ => Ok tt).

(** A platform on which the user has denied access to the devices. *)
Definition denied : Platform :=
  mkPlatform
    (fun _ _ => Throw MediaAccessError)
    (Ok "sdp-offer") (Ok "sdp-answer")
    (fun _ => Ok tt) (fun _ => Ok tt) (fun _ => Ok tt) (fun _ => Ok tt).

(** ** Concrete sessions used as examples *)

Definition opened (s : State) : State :=
  set_wsRef (Some (mkWebSocket OPEN [])) s.

(** Client "u2" of session "abc123", connected, editor not yet mounted. *)
Definition u2_unmounted : State := opened (initial "u2" "User 2" "abc123").

(** The same client once the editor has mounted. *)
Definition u2_mounted : State := set_editorRef (Some 0) u2_unmounted.

Definition alice : Participant := mkParticipant "a" "Alice".
Definition bob : Participant := mkParticipant "b" "Bob".
Definition carol : Participant := mkParticipant "c" "Carol".

(** Client "u1" of the same session, editor mounted, its socket still
    CONNECTING (the page has just been opened). *)
Definition u1_connecting : State :=
  set_editorRef (Some 0) (initial "u1" "User 1" "abc123").

(** Client "u2" receives an ICE candidate while it has no peer connection
    (it joined after the sender's first offer had been relayed), and only
    then an offer. *)
Definition early_ice : State :=
  exec (handleWebSocketMessage willing (WebrtcIce (Some "candidate-1") "u1"))
    u2_mounted.

Definition early_ice_then_offer : State :=
  exec (handleWebSocketMessage willing (WebrtcOffer "sdp-offer" "u1")) early_ice.

(** The two inbound messages that carry a roster snapshot. *)
Definition is_snapshot (data : Inbound) : bool :=
  match data with
  | ParticipantsUpdate _ | SessionState _ _ _ => true
  | _ => false
  end.

(** The roster a participants_update message installs:
    [data.participants || []]. *)
Definition snapshot_of (ps : option (list Participant)) : list Participant :=
  match ps with
  | Some l => l
  | None => []
  end.

(** A handler leaves an observation [f] of the state as it was. *)
Definition keeps {X A : Type} (f : State -> X) (m : M A) : Prop :=
  forall s, f (snd (m s)) = f s.

(** ** The rest of the page *)

(** [const WS_URL = BACKEND_URL.replace(/^https?/, 'wss')]: a leading "http",
    together with an "s" that follows it, becomes "wss". *)
Fixpoint drop (n : nat) (s : string) : string :=
  match n, s with
  | S n', String _ s' => drop n' s'
  | _, _ => s
  end.

Definition WS_URL (BACKEND_URL : string) : string :=
  if prefix "http" BACKEND_URL then
    let rest := drop 4 BACKEND_URL in
    "wss" ++ (if prefix "s" rest then drop 1 rest else rest)
  else BACKEND_URL.

(** [`${WS_URL}/api/ws/${sessionId}/${userId}`] *)
Definition socket_url (BACKEND_URL sid uid : string) : string :=
  WS_URL BACKEND_URL ++ "/api/ws/" ++ sid ++ "/" ++ uid.

(** The participants panel lists
    [participants.filter(p => p.userId !== userId)] below the "(You)" row. *)
Definition listed_participants (s : State) : list Participant :=
  filter (fun p => negb (p_userId p =? userId s)) (participants s).

(** ** The page as a transition system *)

(** The browser moves the socket to its new [readyState] before it fires
    the corresponding event. *)
Definition setReadyState (r : ReadyState) : M unit :=
  modify (fun s =>
            set_wsRef (option_map (fun ws => mkWebSocket r (sent ws)) (wsRef s)) s).

(** Everything that can happen to the mounted page: an event of the socket,
    of the editor, of the peer connection, a click, a timeout. *)
Inductive Action : Type :=
| SocketOpened
| SocketClosed
| SocketErrored
| Receive (P : Platform) (data : Inbound)
| EditorMounted (editor : nat)
| EditorChanged (value : string)
| LanguageSelected (newLanguage : string)
| VideoClicked (P : Platform)
| AudioClicked (P : Platform)
| IceGathered (candidate : option Candidate)
| TrackArrived (streams : list MediaStream)
| TimerFired
| MediaCleanup.

(** The handler an action runs.  The events of the socket and of the peer
    connection need the object that fires them. *)
Definition perform (a : Action) : M unit :=
  match a with
  | SocketOpened =>
      s <- get ;;
      if is_some (wsRef s) then setReadyState OPEN ;; onopen else ret tt
  | SocketClosed =>
      s <- get ;;
      if is_some (wsRef s) then setReadyState CLOSED ;; onclose else ret tt
  | SocketErrored =>
      s <- get ;;
      if is_some (wsRef s) then onerror else ret tt
  | Receive P data => handleWebSocketMessage P data
  | EditorMounted editor => handleEditorMount editor
  | EditorChanged value => handleEditorChange value
  | LanguageSelected newLanguage => handleLanguageChange newLanguage
  | VideoClicked P => toggleVideo P
  | AudioClicked P => toggleAudio P
  | IceGathered candidate =>
      s <- get ;;
      if is_some (peerConnectionRef s) then onicecandidate candidate else ret tt
  | TrackArrived streams =>
      s <- get ;;
      if is_some (peerConnectionRef s) then ontrack streams else ret tt
  | TimerFired => fireTimer
  | MediaCleanup => cleanupMedia
  end.

Definition run_actions (l : list Action) (s : State) : State :=
  fold_left (fun s a => exec (perform a) s) l s.


(** A handler that keeps a property of the state. *)
Definition inv {A : Type} (I : State -> Prop) (m : M A) : Prop :=
  forall s, I s -> I (snd (m s)).

(** The sender and the session a frame is tagged with. *)
Definition sender_of (m : Outbound) : string :=
  match m with
  | OJoin uid _ _ | OCodeChange _ uid _ | OLanguageChange _ uid _
  | OWebrtcOffer _ uid _ | OWebrtcAnswer _ uid _ | OWebrtcIce _ uid _ => uid
  end.

Definition session_of (m : Outbound) : string :=
  match m with
  | OJoin _ _ sid | OCodeChange _ _ sid | OLanguageChange _ _ sid
  | OWebrtcOffer _ _ sid | OWebrtcAnswer _ _ sid | OWebrtcIce _ _ sid => sid
  end.

(** Every frame handed to the transport so far carries this identity, and
    it is the page's own. *)
Definition identified (uid sid : string) (s : State) : Prop :=
  userId s = uid /\ sessionId s = sid /\
  match wsRef s with
  | Some ws => Forall (fun m => sender_of m = uid /\ session_of m = sid) (sent ws)
  | None => True
  end.

(** How many times [new RTCPeerConnection] has been called. *)
Definition is_new_pc (e : Event) : bool :=
  match e with EvNewPeerConnection => true | _ => false end.

Definition constructed (s : State) : nat :=
  length (filter is_new_pc (trace s)).


(** The suppression flag is never set without a timeout pending that will
    clear it. *)
Definition flag_backed (s : State) : Prop :=
  isRemoteChangeRef s = true -> timers s <> [].

(** The frame as a peer's [ws.onmessage] decodes it when the relay forwards
    it unchanged: the field each handler reads is the field the sender wrote
    ([code], [language], [offer], [answer], [candidate], [userId]); no case of
    [handleWebSocketMessage] is labelled "join". *)
Definition wire (m : Outbound) : Inbound :=
  match m with
  | OJoin _ _ _ => OtherType "join"
  | OCodeChange text uid _ => CodeChange text uid
  | OLanguageChange lang uid _ => LanguageChange lang uid
  | OWebrtcOffer offer uid _ => WebrtcOffer offer uid
  | OWebrtcAnswer answer uid _ => WebrtcAnswer answer uid
  | OWebrtcIce candidate uid _ => WebrtcIce (Some candidate) uid
  end.

(** The frames a handler handed to the transport. *)
Definition frames (s : State) : list Outbound :=
  match wsRef s with
  | Some ws => sent ws
  | None => []
  end.

(** The document-side and the media-side observations of the page. *)
Definition document_view (s : State) :=
  (code s, language s, participants s, isRemoteChangeRef s, timers s).

Definition media_view (s : State) :=
  (isVideoOn s, isAudioOn s, localStreamRef s, localVideoRef s).

(** The signalling side: the peer connection's descriptions, candidates,
    number of senders and whether it is closed, and the socket. *)
Definition pc_view (pc : PeerConnection) :=
  (remoteDescription pc, localDescription pc, candidates pc,
   length (senders pc), pc_closed pc).

Definition signalling_view (s : State) :=
  (option_map pc_view (peerConnectionRef s), wsRef s).

Definition identity_view (s : State) :=
  (userId s, username s, sessionId s).

(** The actions that may write the roster, the text, the media state. *)
Definition writes_roster (a : Action) : bool :=
  match a with
  | Receive _ data => is_snapshot data
  | _ => false
  end.

Definition writes_document (a : Action) : bool :=
  match a with
  | Receive _ (CodeChange _ _) | Receive _ (LanguageChange _ _)
  | Receive _ (ParticipantsUpdate _) | Receive _ (SessionState _ _ _)
  | EditorChanged _ | LanguageSelected _ | TimerFired => true
  | _ => false
  end.

Definition writes_media (a : Action) : bool :=
  match a with
  | VideoClicked _ | AudioClicked _ | MediaCleanup => true
  | _ => false
  end.

(** [value || fallback] for an optional string: the fallback is taken when
    the value is absent, [null] or empty. *)
Definition or_else (o : option string) (fallback : string) : string :=
  match o with
  | Some v => if v =? "" then fallback else v
  | None => fallback
  end.

(** ** The landing page ([LandingPage.jsx]) *)

Module Landing.

(** A JavaScript string, as its UTF-16 code units. *)
Definition JsString := list N.

Definition units (s : string) : JsString :=
  map N_of_ascii (list_ascii_of_string s).

(** The code units [String.prototype.trim] strips: ECMAScript WhiteSpace
    (TAB, VT, FF, SP, NBSP, ZWNBSP and the Unicode space separators) and
    LineTerminator (LF, CR, LS, PS). *)
Definition isWhiteSpace (c : N) : bool :=
  ((9 <=? c) && (c <=? 13) || (c =? 32) || (c =? 160) || (c =? 5760)
   || (8192 <=? c) && (c <=? 8202) || (c =? 8232) || (c =? 8233)
   || (c =? 8239) || (c =? 8287) || (c =? 12288) || (c =? 65279))%N.

Fixpoint dropWhile (p : N -> bool) (l : JsString) : JsString :=
  match l with
  | [] => []
  | c :: l' => if p c then dropWhile p l' else l
  end.

Definition trim (s : JsString) : JsString :=
  rev (dropWhile isWhiteSpace (rev (dropWhile isWhiteSpace s))).

Inductive Event : Type :=
| SetIsCreating (b : bool)
| SetIsJoining (b : bool)
| Post                              (* axios.post(`${API}/sessions`) *)
| Navigate (to : JsString)
| ToastError (text : string)
| ConsoleError (e : Exn).

Record State : Type := mkState {
  sessionCode : JsString;
  isCreating : bool;
  isJoining : bool;
  trace : list Event
}.

(** [response.data] of the session request: absent, or an object whose
    [session_id] may be missing. *)
Inductive Data : Type :=
| NoData
| WithId (session_id : option JsString).

(** [`/session/${session_id}`] *)
Definition session_route (session_id : option JsString) : JsString :=
  units "/session/" ++ match session_id with
                       | Some id => id
                       | None => units "undefined"
                       end.

Definition createSession (response : Result Data) (s : State) : State :=
  let started := trace s ++ [SetIsCreating true; Post] in
  let tried :=
    match response with
    | Ok (WithId session_id) => started ++ [Navigate (session_route session_id)]
    | Ok NoData =>
        started ++ [ToastError "Failed to create session"; ConsoleError TypeError]
    | Throw e =>
        started ++ [ToastError "Failed to create session"; ConsoleError e]
    end in
  mkState (sessionCode s) false (isJoining s) (tried ++ [SetIsCreating false]).

Definition joinSession (s : State) : State :=
  match trim (sessionCode s) with
  | [] =>
      mkState (sessionCode s) (isCreating s) (isJoining s)
        (trace s ++ [ToastError "Please enter a session code"])
  | c :: code =>
      mkState (sessionCode s) (isCreating s) true
        (trace s ++ [SetIsJoining true; Navigate (session_route (Some (c :: code)))])
  end.

(** [onChange={(e) => setSessionCode(e.target.value)}] *)
Definition onChange (value : JsString) (s : State) : State :=
  mkState value (isCreating s) (isJoining s) (trace s).

(** [onKeyDown={(e) => e.key === "Enter" && joinSession()}] *)
Definition onKeyDown (key : string) (s : State) : State :=
  if key =? "Enter" then joinSession s else s.

Definition navigations (s : State) : list JsString :=
  flat_map (fun e => match e with Navigate to => [to] | _ => [] end) (trace s).

Definition blank (s : JsString) : bool := forallb isWhiteSpace s.

End Landing.

(** The first of the three steps of [handleOffer] the browser refuses, if
    any. *)
Definition answer_failure (P : Platform) (offer : SDP) : option Exn :=
  match plat_setRemoteDescription P offer with
  | Throw e => Some e
  | Ok _ =>
      match plat_createAnswer P with
      | Throw e => Some e
      | Ok answer =>
          match plat_setLocalDescription P answer with
          | Throw e => Some e
          | Ok _ => None
          end
      end
  end.





(** * Properties *)

(** ** Reasoning about handlers *)

Ltac unfold_prims :=
  unfold setRemoteChange, setCode, setLanguage, setParticipants, setIsVideoOn,
    setIsAudioOn, setIsConnected, toast, consoleError, setTimeout,
    send_if_open, send_if_present, ws_send, detach, try_catch,
    emit, modify, get, bind, ret, throw, exec, eval in *.

Ltac unfold_setters :=
  unfold set_editorRef, set_wsRef, set_localVideoRef, set_remoteVideoRef,
    set_peerConnectionRef, set_localStreamRef, set_isRemoteChangeRef, set_code,
    set_language, set_participants, set_isVideoOn, set_isAudioOn,
    set_isConnected, set_timers, set_trace in *.

(** Run a handler symbolically on a state given field by field. *)
Ltac run := unfold_prims; unfold_setters; simpl.

Lemma neq_eqb_false (a b : string) : a <> b -> (a =? b) = false.
Proof. intro H. apply String.eqb_neq. exact H. Qed.

(** ** Text synchronisation *)

(** While the suppression flag is set, the editor's change callback does
    nothing at all: no state is written and nothing is sent. *)
Lemma handleEditorChange_suppressed (s : State) (v : string) :
  isRemoteChangeRef s = true -> handleEditorChange v s = (Ok tt, s).
Proof.
  intro Hflag. unfold handleEditorChange. unfold_prims. now rewrite Hflag.
Qed.

(** C1, as amended: an inbound code_change from another user that arrives
    once the editor handle exists replaces the local text; the handler sets
    the suppression flag, then writes the text, then schedules the clearing of
    the flag (50 ms), and sends nothing; and every editor change callback
    that fires while the flag is set returns without writing or sending
    anything. *)
Theorem remote_code_change_applied_without_echo
    (P : Platform) (s : State) (text uid : string) (ed : nat) :
  uid <> userId s ->
  editorRef s = Some ed ->
  let s' := exec (handleWebSocketMessage P (CodeChange text uid)) s in
  code s' = text /\
  isRemoteChangeRef s' = true /\
  trace s' = trace s ++ [EvSetRemoteChange true; EvSetCode text; EvSetTimeout 50] /\
  timers s' = timers s ++ [ClearRemoteChange 50] /\
  wsRef s' = wsRef s /\
  (forall t v, isRemoteChangeRef t = true -> handleEditorChange v t = (Ok tt, t)).
Proof.
  intros Huid Hed s'. subst s'.
  unfold handleWebSocketMessage. unfold_prims.
  rewrite (neq_eqb_false Huid), Hed. simpl.
  repeat split.
  - now rewrite <- !app_assoc.
  - intros t v Ht. now apply handleEditorChange_suppressed.
Qed.

Lemma remote_code_change_applied_without_echo_witness :
  let s' := exec (handleWebSocketMessage willing (CodeChange "x=1" "u1")) u2_mounted in
  code s' = "x=1" /\
  isRemoteChangeRef s' = true /\
  trace s' = trace u2_mounted
             ++ [EvSetRemoteChange true; EvSetCode "x=1"; EvSetTimeout 50] /\
  timers s' = timers u2_mounted ++ [ClearRemoteChange 50] /\
  wsRef s' = wsRef u2_mounted /\
  (forall t v, isRemoteChangeRef t = true -> handleEditorChange v t = (Ok tt, t)).
Proof.
  apply (@remote_code_change_applied_without_echo willing u2_mounted "x=1" "u1" 0).
  - discriminate.
  - reflexivity.
Defined.

(** C1, as stated, fails: a code_change from another user that arrives
    before the editor has mounted does not replace the local text. *)
Lemma remote_code_change_not_applied_unmounted :
  "u1" <> userId u2_unmounted /\
  code (exec (handleWebSocketMessage willing (CodeChange "x=1" "u1")) u2_unmounted)
    <> "x=1".
Proof. split; discriminate. Qed.



(** C7: a local edit made while the suppression flag is clear and the
    socket is OPEN writes the new text and calls [send] exactly once, with a
    code_change carrying the new full text and the local userId. *)
Theorem local_edit_broadcast_once
    (s : State) (ws : WebSocket) (value : string) :
  isRemoteChangeRef s = false ->
  wsRef s = Some ws ->
  readyState ws = OPEN ->
  let msg := OCodeChange value (userId s) (sessionId s) in
  let s' := exec (handleEditorChange value) s in
  eval (handleEditorChange value) s = Ok tt /\
  code s' = value /\
  wsRef s' = Some (mkWebSocket OPEN (sent ws ++ [msg])) /\
  trace s' = trace s ++ [EvSetCode value; EvWsSend msg].
Proof.
  intros Hflag Hws Hopen msg s'. subst msg s'.
  unfold handleEditorChange. unfold_prims.
  rewrite Hflag. simpl. rewrite Hws, Hopen. simpl. rewrite Hws, Hopen. simpl.
  repeat split. now rewrite <- app_assoc.
Qed.

Lemma local_edit_broadcast_once_witness :
  let msg := OCodeChange "x=1" "u2" "abc123" in
  let s' := exec (handleEditorChange "x=1") u2_mounted in
  eval (handleEditorChange "x=1") u2_mounted = Ok tt /\
  code s' = "x=1" /\
  wsRef s' = Some (mkWebSocket OPEN ([] ++ [msg])) /\
  trace s' = trace u2_mounted ++ [EvSetCode "x=1"; EvWsSend msg].
Proof.
  apply (@local_edit_broadcast_once u2_mounted (mkWebSocket OPEN []) "x=1");
    reflexivity.
Defined.

(** ** Presence *)

(** C4: after two successive participants_update messages the roster is
    exactly the list carried by the second one (the empty roster when it
    carries none), whatever the earlier message and the earlier roster were;
    so [alice; bob] followed by [bob; carol] leaves [bob; carol]. *)
Theorem roster_replaced_by_last_snapshot
    (P : Platform) (s : State) (ps1 ps2 : option (list Participant)) :
  let update ps := handleWebSocketMessage P (ParticipantsUpdate ps) in
  participants (exec (update ps2) (exec (update ps1) s)) = snapshot_of ps2 /\
  participants (exec (update (Some [bob; carol]))
                  (exec (update (Some [alice; bob])) s)) = [bob; carol].
Proof.
  unfold handleWebSocketMessage. unfold_prims. simpl. split; reflexivity.
Qed.

Section Frame.

Context {X : Type} (f : State -> X).
Hypothesis f_trace : forall v s, f (set_trace v s) = f s.

Lemma keeps_ret {A : Type} (a : A) : keeps f (ret a).
Proof. intro s. reflexivity. Qed.

Lemma keeps_throw {A : Type} (e : Exn) : keeps f (@throw A e).
Proof. intro s. reflexivity. Qed.

Lemma keeps_get : keeps f get.
Proof. intro s. reflexivity. Qed.

Lemma keeps_lift {A : Type} (r : Result A) : keeps f (lift r).
Proof. destruct r; intro s; reflexivity. Qed.

Lemma keeps_emit (e : Event) : keeps f (emit e).
Proof. intro s. unfold emit, modify. simpl. apply f_trace. Qed.

Lemma keeps_modify (g : State -> State) :
  (forall s, f (g s) = f s) -> keeps f (modify g).
Proof. intros Hg s. apply Hg. Qed.

Lemma keeps_bind {A B : Type} (m : M A) (k : A -> M B) :
  keeps f m -> (forall a, keeps f (k a)) -> keeps f (bind m k).
Proof.
  intros Hm Hk s. unfold bind. specialize (Hm s).
  destruct (m s) as [[a | e] s1]; simpl in *.
  - now rewrite Hk.
  - exact Hm.
Qed.

Lemma keeps_try_catch {A : Type} (m : M A) (h : Exn -> M A) :
  keeps f m -> (forall e, keeps f (h e)) -> keeps f (try_catch m h).
Proof.
  intros Hm Hh s. unfold try_catch. specialize (Hm s).
  destruct (m s) as [[a | e] s1]; simpl in *.
  - exact Hm.
  - now rewrite Hh.
Qed.

Lemma keeps_forEach {A : Type} (l : list A) (g : A -> M unit) :
  (forall a, keeps f (g a)) -> keeps f (forEach l g).
Proof.
  intro Hg. induction l as [| a l IH]; simpl.
  - apply keeps_ret.
  - apply keeps_bind; [apply Hg | intros _; exact IH].
Qed.

End Frame.

(** One step of a frame proof: split the handler at its outermost
    construct, or open the next definition. *)
Ltac frame_step :=
  match goal with
  | |- keeps _ (ret _) => apply keeps_ret
  | |- keeps _ (throw _) => apply keeps_throw
  | |- keeps _ get => apply keeps_get
  | |- keeps _ (lift _) => apply keeps_lift
  | |- keeps _ (emit _) => apply keeps_emit; intros; reflexivity
  | |- keeps _ (modify _) => apply keeps_modify; intros; reflexivity
  | |- keeps _ (bind _ _) => apply keeps_bind; [| intro]
  | |- keeps _ (try_catch _ _) => apply keeps_try_catch; [| intro]
  | |- keeps _ (forEach _ _) => apply keeps_forEach; intro
  | |- keeps _ (if ?b then _ else _) => destruct b
  | |- keeps _ (match ?x with _ => _ end) => destruct x
  end.

Ltac frame :=
  repeat first
    [ frame_step
    | progress unfold toast, consoleError, setRemoteChange, setCode, setLanguage,
        setIsVideoOn, setIsAudioOn, setIsConnected, setTimeout, detach,
        send_if_open, send_if_present, ws_send, with_pc, update_pc, initWebRTC,
        pc_setRemoteDescription, pc_setLocalDescription, pc_createOffer,
        pc_createAnswer, pc_addIceCandidate, pc_addTrack, pc_addTrack_if_present,
        getUserMedia,
        stopLocalTracks, setLocalVideoSrc ].

(** The signalling handlers never write the roster. *)
Lemma handleOffer_keeps_roster (P : Platform) (offer : SDP) :
  keeps participants (handleOffer P offer).
Proof. unfold handleOffer. frame. Qed.

Lemma handleAnswer_keeps_roster (P : Platform) (answer : SDP) :
  keeps participants (handleAnswer P answer).
Proof. unfold handleAnswer. frame. Qed.

Lemma handleIceCandidate_keeps_roster (P : Platform) (c : option Candidate) :
  keeps participants (handleIceCandidate P c).
Proof. unfold handleIceCandidate. frame. Qed.

(** C9: user_joined and user_left do nothing but show a toast, and no
    inbound message other than the two snapshot messages (participants_update
    and session_state) changes the roster. *)
Theorem notifications_leave_roster (P : Platform) (s : State) :
  (forall uname,
     handleWebSocketMessage P (UserJoined uname) s
     = (Ok tt, set_trace (trace s ++ [EvToast ToastInfo (someone uname ++ " joined")]) s)) /\
  (forall uname,
     handleWebSocketMessage P (UserLeft uname) s
     = (Ok tt, set_trace (trace s ++ [EvToast ToastInfo (someone uname ++ " left")]) s)) /\
  (forall data,
     is_snapshot data = false ->
     participants (exec (handleWebSocketMessage P data) s) = participants s).
Proof.
  split; [| split].
  - intro uname. reflexivity.
  - intro uname. reflexivity.
  - intros data Hdata. unfold exec. revert s.
    change (keeps participants (handleWebSocketMessage P data)).
    unfold handleWebSocketMessage.
    destruct data; try discriminate Hdata;
      (apply keeps_bind; [apply keeps_get | intro]); frame;
      first [ apply handleOffer_keeps_roster
            | apply handleAnswer_keeps_roster
            | apply handleIceCandidate_keeps_roster ].
Qed.

Lemma notifications_leave_roster_witness :
  participants (exec (handleWebSocketMessage willing (UserLeft (Some "Bob")))
                  (set_participants [alice; bob] u2_mounted))
  = [alice; bob].
Proof.
  apply (proj2 (proj2 (notifications_leave_roster willing
                         (set_participants [alice; bob] u2_mounted)))
           (UserLeft (Some "Bob"))).
  reflexivity.
Defined.

(** ** Signalling *)

Lemma bind_ok {A B : Type} (m : M A) (k : A -> M B) (s s1 : State) (a : A) :
  m s = (Ok a, s1) -> bind m k s = k a s1.
Proof. intro H. unfold bind. now rewrite H. Qed.

(** Run the first handler of a sequence, its outcome established by [tac],
    and go on with the rest. *)
Ltac step_with tac := erewrite bind_ok; [| solve [tac]]; cbv beta.
Ltac step := step_with ltac:(run; reflexivity).

(** One iteration of the loop of [toggleVideo] over the tracks of the new
    stream, when a peer connection exists and the platform accepts the
    track. *)
Lemma addTrack_step (P : Platform) (t : MediaTrack) (s : State) (pc : PeerConnection) :
  peerConnectionRef s = Some pc ->
  plat_addTrack P t = Ok tt ->
  pc_addTrack_if_present P t s
  = (Ok tt,
     set_peerConnectionRef
       (Some (mkPC (remoteDescription pc) (localDescription pc) (candidates pc)
                (senders pc ++ [t]) (pc_closed pc)))
       (set_trace (trace s ++ [EvAddTrack t]) s)).
Proof.
  intros Hpc Hok. destruct s; simpl in Hpc; subst.
  unfold pc_addTrack_if_present, pc_addTrack, with_pc, update_pc. run.
  now rewrite Hok.
Qed.

(** The whole loop. *)
Lemma forEach_addTrack (P : Platform) (l : list MediaTrack) :
  (forall t, In t l -> plat_addTrack P t = Ok tt) ->
  forall (s : State) (pc : PeerConnection),
    peerConnectionRef s = Some pc ->
    forEach l (pc_addTrack_if_present P) s
    = (Ok tt,
       set_peerConnectionRef
         (Some (mkPC (remoteDescription pc) (localDescription pc) (candidates pc)
                  (senders pc ++ l) (pc_closed pc)))
         (set_trace (trace s ++ map EvAddTrack l) s)).
Proof.
  induction l as [| t l IH]; intros Hok s pc Hpc.
  - simpl. unfold ret. f_equal.
    destruct s, pc; simpl in *. subst. unfold set_peerConnectionRef, set_trace.
    simpl. now rewrite !app_nil_r.
  - cbn [forEach].
    erewrite bind_ok; [| apply addTrack_step; [exact Hpc | apply Hok; now left]].
    erewrite IH; [| intros t' Ht'; apply Hok; now right | reflexivity].
    unfold set_peerConnectionRef, set_trace. simpl.
    now rewrite <- !app_assoc.
Qed.




(** C2, as amended: the page keeps no buffer of ICE candidates.  A
    webrtc_ice message carrying a candidate is handed to [addIceCandidate] at
    once when a peer connection exists, whether or not a remote description
    has been set, and a candidate the browser rejects is not kept; when no
    peer connection exists the message leaves the state as it was. *)
Theorem ice_candidate_applied_at_once_or_ignored
    (P : Platform) (s : State) (c : Candidate) (uid : string) :
  let s' := exec (handleWebSocketMessage P (WebrtcIce (Some c) uid)) s in
  match peerConnectionRef s with
  | None => s' = s
  | Some pc =>
      match plat_addIceCandidate P c with
      | Ok _ =>
          s' = set_peerConnectionRef
                 (Some (mkPC (remoteDescription pc) (localDescription pc)
                          (candidates pc ++ [c]) (senders pc) (pc_closed pc)))
                 (set_trace (trace s ++ [EvAddIceCandidate c]) s)
      | Throw e =>
          s' = set_trace (trace s ++ [EvAddIceCandidate c; EvUnhandledRejection e]) s
      end
  end.
Proof.
  destruct s. unfold handleWebSocketMessage, handleIceCandidate, pc_addIceCandidate,
    with_pc, update_pc. run.
  destruct peerConnectionRef0 as [pc |]; run; [| reflexivity].
  destruct (plat_addIceCandidate P c) as [u | e]; run.
  - reflexivity.
  - now rewrite <- app_assoc.
Qed.

(** C2, as stated, fails: a candidate received before any remote
    description is set (here: before a peer connection exists) is stored
    nowhere, and once the offer has been applied as remote description the
    candidate has still not been given to the peer connection. *)
Lemma early_ice_candidate_dropped :
  peerConnectionRef u2_mounted = None /\
  early_ice = u2_mounted /\
  option_map remoteDescription (peerConnectionRef early_ice_then_offer)
    = Some (Some "sdp-offer") /\
  option_map candidates (peerConnectionRef early_ice_then_offer) = Some [] /\
  ~ In (EvAddIceCandidate "candidate-1") (trace early_ice_then_offer).
Proof.
  repeat split.
  vm_compute. intros H.
  repeat (destruct H as [H | H]; [discriminate H |]). exact H.
Qed.

(** The guarded sends: the page does not call [send] unless the socket is
    OPEN, so nothing is thrown, queued or retried. *)
Lemma send_if_open_dropped (s : State) (m : Outbound) :
  match wsRef s with
  | Some ws => is_open (readyState ws) = false
  | None => True
  end ->
  send_if_open m s = (Ok tt, s).
Proof.
  unfold send_if_open. run.
  destruct (wsRef s) as [ws |]; [intros -> |]; reflexivity.
Qed.

(** The unguarded sends (webrtc_offer, webrtc_answer): [send] is called
    whatever the state of the socket, and throws while it is CONNECTING. *)
Lemma send_if_present_connecting (s : State) (ws : WebSocket) (m : Outbound) :
  wsRef s = Some ws ->
  readyState ws = CONNECTING ->
  send_if_present m s
  = (Throw InvalidStateError, set_trace (trace s ++ [EvWsSend m]) s).
Proof.
  intros Hws Hst. destruct s, ws; simpl in *; subst.
  unfold send_if_present. run. reflexivity.
Qed.

(** C3 fails on the offer path: with the socket still CONNECTING, turning
    the camera on calls [send] with the webrtc_offer; the call throws, the
    page reports a camera failure, and the video flag stays on. *)
Theorem offer_send_attempted_while_connecting :
  let s' := exec (toggleVideo willing) u1_connecting in
  option_map readyState (wsRef u1_connecting) = Some CONNECTING /\
  eval (toggleVideo willing) u1_connecting = Ok tt /\
  trace s' = [EvGetUserMedia true false; EvSetIsVideoOn true; EvNewPeerConnection;
              EvAddTrack (mkTrack VideoTrack "camera" false);
              EvCreateOffer; EvSetLocalDescription "sdp-offer";
              EvWsSend (OWebrtcOffer "sdp-offer" "u1" "abc123");
              EvToast ToastError "Failed to access camera";
              EvConsoleError InvalidStateError] /\
  isVideoOn s' = true /\
  is_some (peerConnectionRef s') = true.
Proof. repeat split. Qed.

(** ** Media *)

(** C5: when acquiring the camera fails while video is off, [toggleVideo]
    returns normally and the component is as it was (so the video flag is
    still off, the peer-connection ref, the local stream and the socket are
    untouched), apart from the trace: the request, an error toast shown to
    the user, and the console entry. *)
Theorem video_enable_failure_leaves_state (P : Platform) (s : State) (e : Exn) :
  isVideoOn s = false ->
  plat_getUserMedia P true (isAudioOn s) = Throw e ->
  let s' := exec (toggleVideo P) s in
  toggleVideo P s
  = (Ok tt,
     set_trace (trace s ++ [EvGetUserMedia true (isAudioOn s);
                            EvToast ToastError "Failed to access camera";
                            EvConsoleError e]) s) /\
  isVideoOn s' = false /\
  peerConnectionRef s' = peerConnectionRef s /\
  localStreamRef s' = localStreamRef s /\
  wsRef s' = wsRef s /\
  ~ In EvNewPeerConnection (skipn (length (trace s)) (trace s')).
Proof.
  intros Hoff Hfail s'.
  assert (Hrun : toggleVideo P s
                 = (Ok tt,
                    set_trace (trace s ++ [EvGetUserMedia true (isAudioOn s);
                                           EvToast ToastError "Failed to access camera";
                                           EvConsoleError e]) s)).
  { destruct s; simpl in *; subst. unfold toggleVideo, getUserMedia. run.
    rewrite Hfail. run. now rewrite <- !app_assoc. }
  subst s'. unfold exec. rewrite Hrun. cbn [snd].
  destruct s; simpl in *. repeat split; try assumption.
  rewrite skipn_app, skipn_all, Nat.sub_diag. simpl.
  intros [H | [H | [H | []]]]; discriminate H.
Qed.

Lemma video_enable_failure_leaves_state_witness :
  let s' := exec (toggleVideo denied) u2_mounted in
  toggleVideo denied u2_mounted
  = (Ok tt,
     set_trace (trace u2_mounted ++ [EvGetUserMedia true (isAudioOn u2_mounted);
                                     EvToast ToastError "Failed to access camera";
                                     EvConsoleError MediaAccessError]) u2_mounted) /\
  isVideoOn s' = false /\
  peerConnectionRef s' = peerConnectionRef u2_mounted /\
  localStreamRef s' = localStreamRef u2_mounted /\
  wsRef s' = wsRef u2_mounted /\
  ~ In EvNewPeerConnection (skipn (length (trace u2_mounted)) (trace s')).
Proof.
  apply (@video_enable_failure_leaves_state denied u2_mounted MediaAccessError);
    reflexivity.
Defined.

(** C8, as amended: turning the camera on while video is off and no peer
    connection exists, on an open socket and with the browser carrying out
    each step, creates the peer connection, adds the stream's tracks to it,
    creates an offer, sets it as local description and sends a webrtc_offer
    with the local userId, in that order. *)
Theorem video_enable_starts_negotiation
    (P : Platform) (s : State) (ws : WebSocket) (stream : MediaStream) (offer : SDP) :
  isVideoOn s = false ->
  peerConnectionRef s = None ->
  wsRef s = Some ws ->
  readyState ws = OPEN ->
  plat_getUserMedia P true (isAudioOn s) = Ok stream ->
  (forall t, In t (tracks stream) -> plat_addTrack P t = Ok tt) ->
  plat_createOffer P = Ok offer ->
  plat_setLocalDescription P offer = Ok tt ->
  let msg := OWebrtcOffer offer (userId s) (sessionId s) in
  let s' := exec (toggleVideo P) s in
  isVideoOn s' = true /\
  peerConnectionRef s' = Some (mkPC None (Some offer) [] (tracks stream) false) /\
  wsRef s' = Some (mkWebSocket OPEN (sent ws ++ [msg])) /\
  trace s' = trace s
             ++ [EvGetUserMedia true (isAudioOn s); EvSetIsVideoOn true;
                 EvNewPeerConnection]
             ++ map EvAddTrack (tracks stream)
             ++ [EvCreateOffer; EvSetLocalDescription offer; EvWsSend msg].
Proof.
  intros Hoff Hpc Hws Hopen Hmedia Htracks Hoffer Hlocal msg s'. subst msg s'.
  destruct s, ws; simpl in *; subst.
  unfold toggleVideo, exec, try_catch.
  step. cbn [isVideoOn isAudioOn].
  step_with ltac:(unfold getUserMedia; run; rewrite Hmedia; reflexivity).
  step.
  destruct localVideoRef0 as [v |];
    (step_with ltac:(unfold setLocalVideoSrc; run; reflexivity));
    step; step; cbn [is_some peerConnectionRef];
    (step_with ltac:(unfold initWebRTC; run; reflexivity));
    (step_with ltac:(apply forEach_addTrack; [exact Htracks | reflexivity]));
    (step_with ltac:(unfold pc_createOffer, with_pc; run; rewrite Hoffer; reflexivity));
    (step_with ltac:(unfold pc_setLocalDescription, with_pc, update_pc; run;
                     rewrite Hlocal; reflexivity));
    unfold send_if_present; run; rewrite <- !app_assoc; repeat split.
Qed.

Lemma video_enable_starts_negotiation_witness :
  let msg := OWebrtcOffer "sdp-offer" "u2" "abc123" in
  let s' := exec (toggleVideo willing) u2_mounted in
  isVideoOn s' = true /\
  peerConnectionRef s'
  = Some (mkPC None (Some "sdp-offer") [] (tracks camera) false) /\
  wsRef s' = Some (mkWebSocket OPEN ([] ++ [msg])) /\
  trace s' = trace u2_mounted
             ++ [EvGetUserMedia true (isAudioOn u2_mounted); EvSetIsVideoOn true;
                 EvNewPeerConnection]
             ++ map EvAddTrack (tracks camera)
             ++ [EvCreateOffer; EvSetLocalDescription "sdp-offer"; EvWsSend msg].
Proof.
  apply (@video_enable_starts_negotiation willing u2_mounted (mkWebSocket OPEN [])
           camera "sdp-offer"); reflexivity.
Defined.

(** C8, as stated, fails for audio: turning the microphone on with no
    peer connection acquires the device and sets the audio flag, and that is
    all; no peer connection is created, no offer is made, nothing is sent. *)
Lemma audio_enable_starts_no_negotiation :
  let s' := exec (toggleAudio willing) u2_mounted in
  isAudioOn u2_mounted = false /\
  peerConnectionRef u2_mounted = None /\
  isAudioOn s' = true /\
  localStreamRef s' = Some microphone /\
  peerConnectionRef s' = None /\
  wsRef s' = wsRef u2_mounted /\
  trace s' = [EvGetUserMedia false true; EvSetIsAudioOn true].
Proof. repeat split. Qed.

(** * More of the page *)

(** ** What every handler leaves alone *)

Ltac unfold_handlers :=
  unfold perform, handleWebSocketMessage, handleOffer, handleAnswer,
    handleIceCandidate, handleEditorChange, handleLanguageChange,
    handleEditorMount, toggleVideo, toggleAudio, cleanupMedia, fireTimer,
    onopen, onclose, onerror, onicecandidate, ontrack, setReadyState.

(** Evaluate a handler by value on a state given field by field: the inner
    state is computed before an update copies it. *)
Ltac crunch :=
  cbv [setRemoteChange setCode setLanguage setParticipants setIsVideoOn
       setIsAudioOn setIsConnected toast consoleError setTimeout send_if_open
       send_if_present ws_send detach try_catch emit modify get bind ret throw
       lift exec eval with_pc update_pc initWebRTC setReadyState frames
       set_editorRef set_wsRef set_localVideoRef set_remoteVideoRef
       set_peerConnectionRef set_localStreamRef set_isRemoteChangeRef set_code
       set_language set_participants set_isVideoOn set_isAudioOn set_isConnected
       set_timers set_trace
       editorRef wsRef localVideoRef remoteVideoRef peerConnectionRef
       localStreamRef isRemoteChangeRef code language participants isVideoOn
       isAudioOn isConnected userId username sessionId timers trace
       fst snd is_some is_open option_map negb andb].

(** Walk through a handler, leaving the writes that touch the observation. *)
Ltac frame_all := unfold_handlers; unfold setParticipants; frame.

Lemma run_actions_app (l1 l2 : list Action) (s : State) :
  run_actions (l1 ++ l2) s = run_actions l2 (run_actions l1 s).
Proof. unfold run_actions. apply fold_left_app. Qed.

(** A property every action keeps holds after every run. *)
Lemma run_actions_inv (I : State -> Prop) :
  (forall a, inv I (perform a)) ->
  forall l s, I s -> I (run_actions l s).
Proof.
  intros Hstep l. induction l as [| a l IH]; intros s Hs.
  - exact Hs.
  - simpl. apply IH. apply Hstep. exact Hs.
Qed.

Lemma keeps_inv {X A : Type} (f : State -> X) (m : M A) (I : X -> Prop) :
  keeps f m -> inv (fun s => I (f s)) m.
Proof. intros Hk s Hs. now rewrite Hk. Qed.

Lemma perform_keeps_identity (a : Action) : keeps identity_view (perform a).
Proof. destruct a; try destruct data; frame_all. Qed.

Lemma perform_keeps_document (a : Action) :
  writes_document a = false -> keeps document_view (perform a).
Proof.
  destruct a; try destruct data; intro H; try discriminate H; frame_all.
Qed.

Lemma perform_keeps_media (a : Action) :
  writes_media a = false -> keeps media_view (perform a).
Proof.
  destruct a; try destruct data; intro H; try discriminate H; frame_all.
Qed.

Lemma perform_keeps_mounted (a : Action) :
  inv (fun s => is_some (editorRef s) = true) (perform a).
Proof.
  destruct a;
    try solve [apply (keeps_inv (f := editorRef) (fun o => is_some o = true));
               try destruct data; frame_all].
  intros s _. reflexivity.
Qed.

(** Media clicks, media clean-up, signalling messages, events of the peer
    connection and of the socket, and the mounting of the editor never write
    the document side of the page (text, language, roster, suppression flag,
    pending timeouts), whatever the browser answers. *)
Theorem document_untouched_by_media_and_signalling (a : Action) (s : State) :
  writes_document a = false ->
  document_view (exec (perform a) s) = document_view s.
Proof. intro H. apply (perform_keeps_document a H). Qed.

Lemma document_untouched_by_media_and_signalling_witness :
  document_view (exec (perform (VideoClicked willing)) u2_mounted)
  = document_view u2_mounted.
Proof.
  apply (@document_untouched_by_media_and_signalling (VideoClicked willing) u2_mounted).
  reflexivity.
Defined.

(** Inbound messages of every type, local edits, language selection,
    timeouts and events of the socket and of the peer connection never write
    the media side of the page (the two toggles' flags, the local stream, the
    local video element). *)
Theorem media_untouched_by_messages_and_edits (a : Action) (s : State) :
  writes_media a = false ->
  media_view (exec (perform a) s) = media_view s.
Proof. intro H. apply (perform_keeps_media a H). Qed.

Lemma media_untouched_by_messages_and_edits_witness :
  media_view (exec (perform (Receive willing (WebrtcOffer "sdp-offer" "u1"))) u2_mounted)
  = media_view u2_mounted.
Proof.
  apply (@media_untouched_by_messages_and_edits
           (Receive willing (WebrtcOffer "sdp-offer" "u1")) u2_mounted).
  reflexivity.
Defined.

(** The roster is written by the two snapshot messages and by nothing
    else: no local handler (edits, language selection, toggles, clean-up,
    timeouts), no event of the socket or of the peer connection and no other
    inbound message changes it, whatever the browser answers. *)
Theorem roster_written_only_by_snapshots (a : Action) (s : State) :
  writes_roster a = false ->
  participants (exec (perform a) s) = participants s.
Proof.
  intro H. unfold exec. revert s. change (keeps participants (perform a)).
  destruct a; try destruct data; try discriminate H; frame_all.
Qed.

Lemma roster_written_only_by_snapshots_witness :
  participants (exec (perform (EditorChanged "x=1"))
                  (set_participants [alice; bob] u2_mounted))
  = participants (set_participants [alice; bob] u2_mounted).
Proof.
  apply (@roster_written_only_by_snapshots (EditorChanged "x=1")
           (set_participants [alice; bob] u2_mounted)).
  reflexivity.
Defined.

(** ** Text and language *)

(** A code_change or language_change frame that carries the page's own
    userId (its own frame, echoed by the relay) is ignored entirely, with the
    editor mounted or not. *)
Theorem own_frames_ignored (P : Platform) (s : State) (text lang : string) :
  handleWebSocketMessage P (CodeChange text (userId s)) s = (Ok tt, s) /\
  handleWebSocketMessage P (LanguageChange lang (userId s)) s = (Ok tt, s).
Proof.
  unfold handleWebSocketMessage. unfold_prims.
  rewrite String.eqb_refl. split; reflexivity.
Qed.

(** Last message received wins: whatever happened before (any run of
    actions, from any state with the editor mounted), after a code_change from
    another user the local text is that message's text. *)
Theorem last_remote_edit_wins
    (P : Platform) (l : list Action) (s : State) (text uid : string) :
  is_some (editorRef s) = true ->
  uid <> userId s ->
  code (run_actions (l ++ [Receive P (CodeChange text uid)]) s) = text.
Proof.
  intros Hed Huid. rewrite run_actions_app.
  pose proof (run_actions_inv perform_keeps_mounted l s Hed) as Hed'.
  pose proof (run_actions_inv (I := fun t => identity_view t = identity_view s)
                (fun a => keeps_inv (fun v => v = identity_view s)
                            (perform_keeps_identity a)) l s eq_refl) as Hid.
  set (s1 := run_actions l s) in *.
  assert (Hu : userId s1 = userId s) by (now injection Hid).
  simpl. unfold exec, handleWebSocketMessage. unfold_prims.
  rewrite Hu, (neq_eqb_false Huid), Hed'. reflexivity.
Qed.

Lemma last_remote_edit_wins_witness :
  code (run_actions ([Receive willing (CodeChange "x=0" "u1");
                      EditorChanged "x=2";
                      Receive willing (CodeChange "x=3" "u3")]
                     ++ [Receive willing (CodeChange "x=1" "u1")]) u2_mounted)
  = "x=1".
Proof.
  apply (@last_remote_edit_wins willing _ u2_mounted "x=1" "u1").
  - reflexivity.
  - discriminate.
Defined.

(** The state a code_change from another user leaves, field by field. *)
Lemma remote_code_change_exact
    (P : Platform) (s : State) (ed : nat) (text uid : string) :
  uid <> userId s ->
  editorRef s = Some ed ->
  handleWebSocketMessage P (CodeChange text uid) s
  = (Ok tt,
     mkState (editorRef s) (wsRef s) (localVideoRef s) (remoteVideoRef s)
       (peerConnectionRef s) (localStreamRef s) true text (language s)
       (participants s) (isVideoOn s) (isAudioOn s) (isConnected s) (userId s)
       (username s) (sessionId s) (timers s ++ [ClearRemoteChange 50])
       (trace s ++ [EvSetRemoteChange true; EvSetCode text; EvSetTimeout 50])).
Proof.
  intros Huid Hed. destruct s; simpl in *; subst.
  unfold handleWebSocketMessage. crunch.
  rewrite (neq_eqb_false Huid). crunch.
  now rewrite <- !app_assoc.
Qed.

(** When the timeout of a remote update fires, the suppression window
    closes: the flag is clear again, and the next local edit on an open
    socket is broadcast. *)
Theorem suppression_window_closes
    (P : Platform) (s : State) (ws : WebSocket) (ed : nat) (text uid value : string) :
  uid <> userId s ->
  editorRef s = Some ed ->
  timers s = [] ->
  wsRef s = Some ws ->
  readyState ws = OPEN ->
  let s1 := exec (handleWebSocketMessage P (CodeChange text uid)) s in
  let s2 := exec fireTimer s1 in
  let s3 := exec (handleEditorChange value) s2 in
  isRemoteChangeRef s1 = true /\
  frames (exec (handleEditorChange value) s1) = frames s /\
  isRemoteChangeRef s2 = false /\ timers s2 = [] /\
  code s3 = value /\
  frames s3 = frames s ++ [OCodeChange value (userId s) (sessionId s)].
Proof.
  intros Huid Hed Ht Hws Hopen s1 s2 s3. subst s1 s2 s3.
  unfold exec. rewrite (@remote_code_change_exact P s ed text uid Huid Hed).
  destruct s, ws; simpl in *; subst.
  unfold fireTimer, handleEditorChange. crunch. repeat split.
Qed.

Lemma suppression_window_closes_witness :
  let s1 := exec (handleWebSocketMessage willing (CodeChange "x=1" "u1")) u2_mounted in
  let s2 := exec fireTimer s1 in
  let s3 := exec (handleEditorChange "x=2") s2 in
  isRemoteChangeRef s1 = true /\
  frames (exec (handleEditorChange "x=2") s1) = frames u2_mounted /\
  isRemoteChangeRef s2 = false /\ timers s2 = [] /\
  code s3 = "x=2" /\
  frames s3 = frames u2_mounted
              ++ [OCodeChange "x=2" (userId u2_mounted) (sessionId u2_mounted)].
Proof.
  apply (@suppression_window_closes willing u2_mounted (mkWebSocket OPEN []) 0
           "x=1" "u1" "x=2"); try reflexivity.
  discriminate.
Defined.

(** Suppression windows are not counted: when two remote updates arrive
    before the first timeout has fired, that first timeout clears the flag
    although the timeout of the second update is still pending. *)
Theorem overlapping_windows_cut_short
    (P : Platform) (s : State) (ed : nat) (text1 uid1 text2 uid2 : string) :
  uid1 <> userId s ->
  uid2 <> userId s ->
  editorRef s = Some ed ->
  timers s = [] ->
  let s2 := exec (handleWebSocketMessage P (CodeChange text2 uid2))
              (exec (handleWebSocketMessage P (CodeChange text1 uid1)) s) in
  timers s2 = [ClearRemoteChange 50; ClearRemoteChange 50] /\
  isRemoteChangeRef (exec fireTimer s2) = false /\
  timers (exec fireTimer s2) = [ClearRemoteChange 50].
Proof.
  intros H1 H2 Hed Ht s2. subst s2.
  unfold exec.
  rewrite (@remote_code_change_exact P s ed text1 uid1 H1 Hed). cbn [snd].
  rewrite (@remote_code_change_exact P _ ed text2 uid2); [| exact H2 | exact Hed].
  destruct s; simpl in *; subst.
  unfold fireTimer. crunch. repeat split.
Qed.

Lemma overlapping_windows_cut_short_witness :
  let s2 := exec (handleWebSocketMessage willing (CodeChange "x=2" "u3"))
              (exec (handleWebSocketMessage willing (CodeChange "x=1" "u1")) u2_mounted) in
  timers s2 = [ClearRemoteChange 50; ClearRemoteChange 50] /\
  isRemoteChangeRef (exec fireTimer s2) = false /\
  timers (exec fireTimer s2) = [ClearRemoteChange 50].
Proof.
  apply (@overlapping_windows_cut_short willing u2_mounted 0 "x=1" "u1" "x=2" "u3");
    try reflexivity; discriminate.
Defined.

(** ** Invariants of the page *)

Section Invariant.

Variable I : State -> Prop.

Lemma inv_ret {A : Type} (a : A) : inv I (ret a).
Proof. intros s Hs. exact Hs. Qed.

Lemma inv_throw {A : Type} (e : Exn) : inv I (@throw A e).
Proof. intros s Hs. exact Hs. Qed.

Lemma inv_get : inv I get.
Proof. intros s Hs. exact Hs. Qed.

Lemma inv_lift {A : Type} (r : Result A) : inv I (lift r).
Proof. destruct r; intros s Hs; exact Hs. Qed.

Lemma inv_modify (g : State -> State) :
  (forall s, I s -> I (g s)) -> inv I (modify g).
Proof. intros Hg s Hs. apply Hg, Hs. Qed.

Lemma inv_bind {A B : Type} (m : M A) (k : A -> M B) :
  inv I m -> (forall a, inv I (k a)) -> inv I (bind m k).
Proof.
  intros Hm Hk s Hs. unfold bind. specialize (Hm s Hs).
  destruct (m s) as [[a | e] s1]; simpl in *.
  - now apply Hk.
  - exact Hm.
Qed.

(** What a handler reads with [get] satisfies the invariant too. *)
Lemma inv_bind_get {B : Type} (k : State -> M B) :
  (forall s0, I s0 -> inv I (k s0)) -> inv I (bind get k).
Proof. intros Hk s Hs. unfold bind, get. now apply Hk. Qed.

Lemma inv_try_catch {A : Type} (m : M A) (h : Exn -> M A) :
  inv I m -> (forall e, inv I (h e)) -> inv I (try_catch m h).
Proof.
  intros Hm Hh s Hs. unfold try_catch. specialize (Hm s Hs).
  destruct (m s) as [[a | e] s1]; simpl in *.
  - exact Hm.
  - now apply Hh.
Qed.

Lemma inv_forEach {A : Type} (l : list A) (g : A -> M unit) :
  (forall a, inv I (g a)) -> inv I (forEach l g).
Proof.
  intro Hg. induction l as [| a l IH]; simpl.
  - apply inv_ret.
  - apply inv_bind; [apply Hg | intros _; exact IH].
Qed.

End Invariant.

(** One step through a handler for an invariant; [side] settles what a
    write has to show. *)
Ltac inv_step side :=
  match goal with
  | |- inv _ (ret _) => apply inv_ret
  | |- inv _ (throw _) => apply inv_throw
  | |- inv _ get => apply inv_get
  | |- inv _ (lift _) => apply inv_lift
  | |- inv _ (modify _) => apply inv_modify; side
  | |- inv _ (bind get _) => apply inv_bind_get; intros ? ?
  | |- inv _ (bind _ _) => apply inv_bind; [| intro]
  | |- inv _ (try_catch _ _) => apply inv_try_catch; [| intro]
  | |- inv _ (forEach _ _) => apply inv_forEach; intro
  | |- inv _ (if ?b then _ else _) => destruct b
  | |- inv _ (match ?x with _ => _ end) => destruct x
  end.

Ltac unfold_writes :=
  unfold toast, consoleError, setRemoteChange, setCode, setLanguage,
    setParticipants, setIsVideoOn, setIsAudioOn, setIsConnected, setTimeout,
    detach, emit, with_pc, update_pc, pc_setRemoteDescription,
    pc_setLocalDescription, pc_createOffer, pc_createAnswer, pc_addIceCandidate,
    pc_addTrack, pc_addTrack_if_present, getUserMedia, stopLocalTracks,
    setLocalVideoSrc.

(** *** Every frame carries the page's own identity *)

Lemma identified_ws_send (uid sid : string) (m : Outbound) :
  sender_of m = uid -> session_of m = sid -> inv (identified uid sid) (ws_send m).
Proof.
  intros Hu Hs s (Hi & Hj & Hw). destruct s; simpl in *.
  unfold ws_send. crunch.
  destruct wsRef0 as [[[] sent0] |]; crunch; unfold identified; simpl;
    repeat split; try assumption.
  apply Forall_app. split; [assumption | now constructor].
Qed.

Lemma identified_setReadyState (uid sid : string) (r : ReadyState) :
  inv (identified uid sid) (setReadyState r).
Proof.
  intros s (Hi & Hj & Hw). destruct s; simpl in *.
  unfold identified. crunch. destruct wsRef0; simpl; repeat split; assumption.
Qed.

Ltac identified_side :=
  try (intros ? ?; assumption).

Ltac identified_walk :=
  repeat first
    [ match goal with
      | |- inv _ (ws_send _) =>
          apply identified_ws_send;
          repeat match goal with
                 | H : identified _ _ _ |- _ => destruct H as (? & ? & _)
                 end; simpl; congruence
      | |- inv _ (setReadyState _) => apply identified_setReadyState
      end
    | inv_step identified_side
    | progress unfold send_if_open, send_if_present, initWebRTC
    | progress unfold_writes ].

Lemma perform_identified (uid sid : string) (a : Action) :
  inv (identified uid sid) (perform a).
Proof.
  destruct a; try destruct data;
    unfold perform, handleWebSocketMessage, handleOffer, handleAnswer,
      handleIceCandidate, handleEditorChange, handleLanguageChange,
      handleEditorMount, toggleVideo, toggleAudio, cleanupMedia, fireTimer,
      onopen, onclose, onerror, onicecandidate, ontrack;
    identified_walk.
Qed.

(** In every run from the first render, the page's userId, username and
    sessionId never change, and every frame it has handed to the socket
    (join, code_change, language_change, webrtc_offer, webrtc_answer,
    webrtc_ice) is tagged with that userId and sessionId. *)
Theorem frames_carry_own_identity (l : list Action) (uid uname sid : string) :
  let s := run_actions l (initial uid uname sid) in
  identity_view s = (uid, uname, sid) /\
  Forall (fun m => sender_of m = uid /\ session_of m = sid) (frames s).
Proof.
  intro s. subst s. split.
  - apply (run_actions_inv (I := fun t => identity_view t = (uid, uname, sid))
             (fun a => keeps_inv (fun v => v = (uid, uname, sid))
                         (perform_keeps_identity a))).
    reflexivity.
  - assert (H : identified uid sid (run_actions l (initial uid uname sid))).
    { apply (run_actions_inv (fun a => @perform_identified uid sid a)).
      repeat split. simpl. constructor. }
    destruct H as (_ & _ & H). unfold frames.
    destruct (wsRef (run_actions l (initial uid uname sid))); [exact H | constructor].
Qed.

(** *** At most one peer connection *)






(** *** The suppression flag cannot stay set *)

Lemma flag_backed_of_view (s s' : State) :
  document_view s' = document_view s -> flag_backed s -> flag_backed s'.
Proof.
  unfold document_view, flag_backed. intros H Hs.
  injection H as _ _ _ Hf Ht. now rewrite Hf, Ht.
Qed.

Lemma flag_backed_snoc (b : bool) (ts : list Timer) (t : Timer) :
  b = true -> ts ++ [t] <> [].
Proof. intros _ H. apply app_eq_nil in H. destruct H as [_ H]. discriminate H. Qed.

Lemma perform_flag_backed (a : Action) : inv flag_backed (perform a).
Proof.
  destruct (writes_document a) eqn:Hw.
  - destruct a; try discriminate Hw; try destruct data; try discriminate Hw;
      intros s Hs; destruct s; unfold flag_backed in *; simpl in *.
    + (* code_change *)
      unfold handleWebSocketMessage. crunch.
      destruct (uid =? userId0); crunch; [exact Hs |].
      destruct editorRef0; crunch; [apply flag_backed_snoc | exact Hs].
    + (* language_change *)
      unfold handleWebSocketMessage. crunch.
      destruct (uid =? userId0); crunch; exact Hs.
    + (* participants_update *)
      unfold handleWebSocketMessage. crunch. exact Hs.
    + (* session_state *)
      unfold handleWebSocketMessage, truthy.
      destruct text as [[| c text] |], lang as [[| c' lang] |], ps as [ps |];
        crunch; simpl; first [exact Hs | apply flag_backed_snoc].
    + (* a local edit *)
      unfold handleEditorChange, perform. crunch.
      destruct isRemoteChangeRef0; crunch; [exact Hs |].
      destruct wsRef0 as [[[] sent0] |]; crunch; exact Hs.
    + (* a language selection *)
      unfold handleLanguageChange, perform. crunch.
      destruct wsRef0 as [[[] sent0] |]; crunch; exact Hs.
    + (* a timeout *)
      unfold fireTimer, perform. crunch.
      destruct timers0 as [| [ms] rest]; crunch; [exact Hs | discriminate].
  - intros s Hs. eapply flag_backed_of_view; [| exact Hs].
    apply (perform_keeps_document a Hw).
Qed.

(** In every run from the first render, whenever the suppression flag is
    set a timeout that clears it is pending, and the next timeout to fire
    does clear it: local edits cannot stay muted. *)
Theorem suppression_flag_never_stuck (l : list Action) (uid uname sid : string) :
  let s := run_actions l (initial uid uname sid) in
  isRemoteChangeRef s = true ->
  timers s <> [] /\ isRemoteChangeRef (exec fireTimer s) = false.
Proof.
  intros s Hflag.
  assert (H : flag_backed s).
  { apply (run_actions_inv perform_flag_backed). intro Hf. discriminate Hf. }
  specialize (H Hflag). split; [exact H |].
  destruct s; simpl in *. unfold fireTimer. crunch.
  destruct timers0 as [| [ms] rest]; [now elim H | reflexivity].
Qed.

Lemma suppression_flag_never_stuck_witness :
  let s := run_actions [EditorMounted 0; Receive willing (CodeChange "x=1" "u1")]
             (initial "u2" "User 2" "abc123") in
  timers s <> [] /\ isRemoteChangeRef (exec fireTimer s) = false.
Proof.
  apply (@suppression_flag_never_stuck
           [EditorMounted 0; Receive willing (CodeChange "x=1" "u1")]
           "u2" "User 2" "abc123").
  reflexivity.
Defined.

(** *** Where an exception can escape *)












(** ** More on text, language and roster *)

(** session_state seeds the page from whatever fields are present and
    truthy, with no check of the sender or of the editor: an absent or empty
    text or language is not applied (an empty document does not replace the
    local text), an empty roster is; the text is applied under the
    suppression flag, with its timeout; nothing is sent. *)
Theorem session_state_seeds_present_fields
    (P : Platform) (s : State) (text lang : option string)
    (ps : option (list Participant)) :
  let s' := exec (handleWebSocketMessage P (SessionState text lang ps)) s in
  code s' = or_else text (code s) /\
  language s' = or_else lang (language s) /\
  participants s' = match ps with Some l => l | None => participants s end /\
  isRemoteChangeRef s' = (truthy text || isRemoteChangeRef s) /\
  timers s' = timers s ++ (if truthy text then [ClearRemoteChange 50] else []) /\
  frames s' = frames s.
Proof.
  destruct s. unfold handleWebSocketMessage, truthy, or_else.
  destruct text as [[| c text] |], lang as [[| c' lang] |], ps as [ps |];
    crunch; simpl; rewrite ?app_nil_r; repeat split.
Qed.

(** Local changes made while the socket is not OPEN (or absent) are applied
    locally and go nowhere: [send] is not called, nothing is kept for later,
    no error is raised; an ICE candidate gathered then is dropped. *)
Theorem local_changes_stay_local_when_not_open
    (s : State) (value lang : string) (candidate : option Candidate) :
  match wsRef s with
  | Some ws => is_open (readyState ws) = false
  | None => True
  end ->
  isRemoteChangeRef s = false ->
  handleEditorChange value s
  = (Ok tt, set_code value (set_trace (trace s ++ [EvSetCode value]) s)) /\
  handleLanguageChange lang s
  = (Ok tt, set_language lang (set_trace (trace s ++ [EvSetLanguage lang]) s)) /\
  onicecandidate candidate s = (Ok tt, s).
Proof.
  intros Hws Hflag. destruct s; simpl in *; subst.
  unfold handleEditorChange, handleLanguageChange, onicecandidate.
  destruct candidate, wsRef0 as [[[] sent0] |]; simpl in Hws;
    try discriminate Hws; crunch; repeat split.
Qed.

Lemma local_changes_stay_local_when_not_open_witness :
  handleEditorChange "x=1" u1_connecting
  = (Ok tt, set_code "x=1" (set_trace (trace u1_connecting ++ [EvSetCode "x=1"])
                             u1_connecting)) /\
  handleLanguageChange "python" u1_connecting
  = (Ok tt, set_language "python"
              (set_trace (trace u1_connecting ++ [EvSetLanguage "python"])
                 u1_connecting)) /\
  onicecandidate (Some "candidate-1") u1_connecting = (Ok tt, u1_connecting).
Proof.
  apply (@local_changes_stay_local_when_not_open u1_connecting "x=1" "python"
           (Some "candidate-1")); reflexivity.
Defined.

(** After a roster snapshot the participants panel lists exactly the
    members of the snapshot other than the page's own user, in the order of
    the snapshot; the own user appears only as the "(You)" row. *)
Theorem panel_lists_the_others
    (P : Platform) (s : State) (ps : list Participant) :
  let s' := exec (handleWebSocketMessage P (ParticipantsUpdate (Some ps))) s in
  listed_participants s' = filter (fun p => negb (p_userId p =? userId s)) ps /\
  (forall p, In p (listed_participants s') <-> In p ps /\ p_userId p <> userId s).
Proof.
  intro s'. subst s'.
  assert (H : listed_participants
                (exec (handleWebSocketMessage P (ParticipantsUpdate (Some ps))) s)
              = filter (fun p => negb (p_userId p =? userId s)) ps).
  { destruct s. unfold listed_participants, handleWebSocketMessage. crunch.
    reflexivity. }
  split; [exact H |].
  intro p. rewrite H, filter_In, negb_true_iff, String.eqb_neq. reflexivity.
Qed.

(** ** Two pages and a relay *)

(** A local edit reaches a peer: the frame the sender hands to its socket,
    decoded by a peer with another userId and a mounted editor, replaces the
    peer's text by the sender's; the peer sends nothing, neither on receipt
    nor when its editor reports the change while the window is open; and the
    same frame echoed to the sender is ignored. *)
Theorem edit_reaches_peer
    (P : Platform) (a b : State) (ws : WebSocket) (ed : nat) (value v : string) :
  isRemoteChangeRef a = false ->
  wsRef a = Some ws ->
  readyState ws = OPEN ->
  editorRef b = Some ed ->
  userId a <> userId b ->
  let m := OCodeChange value (userId a) (sessionId a) in
  let a' := exec (handleEditorChange value) a in
  let b' := exec (handleWebSocketMessage P (wire m)) b in
  frames a' = frames a ++ [m] /\
  code a' = value /\ code b' = value /\
  frames b' = frames b /\
  frames (exec (handleEditorChange v) b') = frames b /\
  handleWebSocketMessage P (wire m) a' = (Ok tt, a').
Proof.
  intros Hflag Hws Hopen Hed Hneq m a' b'. subst m a' b'.
  unfold exec, wire. rewrite (@remote_code_change_exact P b ed value (userId a) Hneq Hed).
  destruct a, b, ws; simpl in *; subst.
  unfold handleEditorChange, handleWebSocketMessage. crunch.
  rewrite String.eqb_refl. crunch. repeat split.
Qed.

Lemma edit_reaches_peer_witness :
  let a := opened u1_connecting in
  let m := OCodeChange "x=1" (userId a) (sessionId a) in
  let a' := exec (handleEditorChange "x=1") a in
  let b' := exec (handleWebSocketMessage willing (wire m)) u2_mounted in
  frames a' = frames a ++ [m] /\
  code a' = "x=1" /\ code b' = "x=1" /\
  frames b' = frames u2_mounted /\
  frames (exec (handleEditorChange "x=2") b') = frames u2_mounted /\
  handleWebSocketMessage willing (wire m) a' = (Ok tt, a').
Proof.
  apply (@edit_reaches_peer willing (opened u1_connecting) u2_mounted
           (mkWebSocket OPEN []) 0 "x=1" "x=2"); try reflexivity.
  discriminate.
Defined.

(** A language selection reaches a peer: the sender's language changes and
    one language_change frame is sent; a peer with another userId adopts the
    language, mounted or not, and sends nothing; the frame echoed to the
    sender is ignored. *)
Theorem language_reaches_peer
    (P : Platform) (a b : State) (ws : WebSocket) (lang : string) :
  wsRef a = Some ws ->
  readyState ws = OPEN ->
  userId a <> userId b ->
  let m := OLanguageChange lang (userId a) (sessionId a) in
  let a' := exec (handleLanguageChange lang) a in
  let b' := exec (handleWebSocketMessage P (wire m)) b in
  frames a' = frames a ++ [m] /\
  language a' = lang /\ language b' = lang /\
  frames b' = frames b /\
  handleWebSocketMessage P (wire m) a' = (Ok tt, a').
Proof.
  intros Hws Hopen Hneq m a' b'. subst m a' b'.
  destruct a, b, ws; simpl in *; subst.
  unfold handleLanguageChange, handleWebSocketMessage, wire. crunch.
  rewrite String.eqb_refl, (neq_eqb_false Hneq). crunch. repeat split.
Qed.

Lemma language_reaches_peer_witness :
  let a := opened u1_connecting in
  let m := OLanguageChange "python" (userId a) (sessionId a) in
  let a' := exec (handleLanguageChange "python") a in
  let b' := exec (handleWebSocketMessage willing (wire m)) u2_unmounted in
  frames a' = frames a ++ [m] /\
  language a' = "python" /\ language b' = "python" /\
  frames b' = frames u2_unmounted /\
  handleWebSocketMessage willing (wire m) a' = (Ok tt, a').
Proof.
  apply (@language_reaches_peer willing (opened u1_connecting) u2_unmounted
           (mkWebSocket OPEN []) "python"); try reflexivity.
  discriminate.
Defined.

(** ** More on signalling *)

(** The state a successful camera start leaves, field by field. *)
Lemma toggleVideo_enable_exact
    (P : Platform) (s : State) (ws : WebSocket) (stream : MediaStream) (offer : SDP) :
  isVideoOn s = false ->
  peerConnectionRef s = None ->
  wsRef s = Some ws ->
  readyState ws = OPEN ->
  plat_getUserMedia P true (isAudioOn s) = Ok stream ->
  (forall t, In t (tracks stream) -> plat_addTrack P t = Ok tt) ->
  plat_createOffer P = Ok offer ->
  plat_setLocalDescription P offer = Ok tt ->
  toggleVideo P s
  = (Ok tt,
     mkState (editorRef s)
       (Some (mkWebSocket OPEN
                (sent ws ++ [OWebrtcOffer offer (userId s) (sessionId s)])))
       (option_map (fun _ => mkVideo (Some (stream_id stream))) (localVideoRef s))
       (remoteVideoRef s)
       (Some (mkPC None (Some offer) [] (tracks stream) false))
       (Some stream) (isRemoteChangeRef s) (code s) (language s) (participants s)
       true (isAudioOn s) (isConnected s) (userId s) (username s) (sessionId s)
       (timers s)
       (trace s
        ++ [EvGetUserMedia true (isAudioOn s); EvSetIsVideoOn true;
            EvNewPeerConnection]
        ++ map EvAddTrack (tracks stream)
        ++ [EvCreateOffer; EvSetLocalDescription offer;
            EvWsSend (OWebrtcOffer offer (userId s) (sessionId s))])).
Proof.
  intros Hoff Hpc Hws Hopen Hmedia Htracks Hoffer Hlocal.
  destruct s, ws; simpl in *; subst.
  unfold toggleVideo, try_catch.
  step. cbn [isVideoOn isAudioOn].
  step_with ltac:(unfold getUserMedia; run; rewrite Hmedia; reflexivity).
  step.
  destruct localVideoRef0 as [v |];
    (step_with ltac:(unfold setLocalVideoSrc; run; reflexivity));
    step; step; cbn [is_some peerConnectionRef];
    (step_with ltac:(unfold initWebRTC; run; reflexivity));
    (step_with ltac:(apply forEach_addTrack; [exact Htracks | reflexivity]));
    (step_with ltac:(unfold pc_createOffer, with_pc; run; rewrite Hoffer; reflexivity));
    (step_with ltac:(unfold pc_setLocalDescription, with_pc, update_pc; run;
                     rewrite Hlocal; reflexivity));
    unfold send_if_present; crunch; rewrite <- !app_assoc; reflexivity.
Qed.

(** What an answered offer leaves: the answer frame and both descriptions. *)
Lemma offer_handled
    (P : Platform) (s : State) (ws : WebSocket) (offer answer : SDP) (uid : string) :
  wsRef s = Some ws ->
  readyState ws = OPEN ->
  plat_setRemoteDescription P offer = Ok tt ->
  plat_createAnswer P = Ok answer ->
  plat_setLocalDescription P answer = Ok tt ->
  let s' := exec (handleWebSocketMessage P (WebrtcOffer offer uid)) s in
  frames s' = frames s ++ [OWebrtcAnswer answer (userId s) (sessionId s)] /\
  option_map remoteDescription (peerConnectionRef s') = Some (Some offer) /\
  option_map localDescription (peerConnectionRef s') = Some (Some answer).
Proof.
  intros Hws Hopen Hremote Hanswer Hlocal s'. subst s'.
  destruct s, ws; simpl in *; subst.
  unfold handleWebSocketMessage, handleOffer, pc_setRemoteDescription,
    pc_createAnswer, pc_setLocalDescription.
  destruct peerConnectionRef0 as [pc |]; crunch;
    rewrite Hremote; crunch; rewrite Hanswer; crunch; rewrite Hlocal; crunch;
    repeat split.
Qed.

(** Offer and answer between two pages: one page turns its camera on, the
    other answers the relayed offer, the first applies the relayed answer.
    Afterwards each page's remote description is the other's local
    description, and the only frames sent are the offer and the answer. *)
Theorem negotiation_round_trip
    (Pa Pb : Platform) (a b : State) (wsa wsb : WebSocket)
    (stream : MediaStream) (offer answer : SDP) :
  isVideoOn a = false ->
  peerConnectionRef a = None ->
  wsRef a = Some wsa -> readyState wsa = OPEN ->
  wsRef b = Some wsb -> readyState wsb = OPEN ->
  plat_getUserMedia Pa true (isAudioOn a) = Ok stream ->
  (forall t, In t (tracks stream) -> plat_addTrack Pa t = Ok tt) ->
  plat_createOffer Pa = Ok offer ->
  plat_setLocalDescription Pa offer = Ok tt ->
  plat_setRemoteDescription Pb offer = Ok tt ->
  plat_createAnswer Pb = Ok answer ->
  plat_setLocalDescription Pb answer = Ok tt ->
  plat_setRemoteDescription Pa answer = Ok tt ->
  let m1 := OWebrtcOffer offer (userId a) (sessionId a) in
  let m2 := OWebrtcAnswer answer (userId b) (sessionId b) in
  let a1 := exec (toggleVideo Pa) a in
  let b1 := exec (handleWebSocketMessage Pb (wire m1)) b in
  let a2 := exec (handleWebSocketMessage Pa (wire m2)) a1 in
  frames a1 = frames a ++ [m1] /\
  frames b1 = frames b ++ [m2] /\
  frames a2 = frames a1 /\
  option_map localDescription (peerConnectionRef a2) = Some (Some offer) /\
  option_map remoteDescription (peerConnectionRef a2) = Some (Some answer) /\
  option_map remoteDescription (peerConnectionRef b1) = Some (Some offer) /\
  option_map localDescription (peerConnectionRef b1) = Some (Some answer).
Proof.
  intros Hoff Hpc Hwsa Hopena Hwsb Hopenb Hmedia Htracks Hoffer Hlocal
    Hremote' Hanswer Hlocal' Hremote m1 m2 a1 b1 a2.
  destruct (@offer_handled Pb b wsb offer answer (userId a)
              Hwsb Hopenb Hremote' Hanswer Hlocal') as (Hb1 & Hb2 & Hb3).
  subst m1 m2 a1 b1 a2. unfold wire.
  split; [| split; [exact Hb1 | split; [| split; [| split; [| split;
    [exact Hb2 | exact Hb3]]]]]];
    unfold exec;
    rewrite (@toggleVideo_enable_exact Pa a wsa stream offer
               Hoff Hpc Hwsa Hopena Hmedia Htracks Hoffer Hlocal);
    destruct a, wsa; simpl in *; subst;
    unfold handleWebSocketMessage, handleAnswer, pc_setRemoteDescription;
    crunch; rewrite ?Hremote; crunch; reflexivity.
Qed.

Lemma negotiation_round_trip_witness :
  let a := opened u1_connecting in
  let m1 := OWebrtcOffer "sdp-offer" (userId a) (sessionId a) in
  let m2 := OWebrtcAnswer "sdp-answer" (userId u2_mounted) (sessionId u2_mounted) in
  let a1 := exec (toggleVideo willing) a in
  let b1 := exec (handleWebSocketMessage willing (wire m1)) u2_mounted in
  let a2 := exec (handleWebSocketMessage willing (wire m2)) a1 in
  frames a1 = frames a ++ [m1] /\
  frames b1 = frames u2_mounted ++ [m2] /\
  frames a2 = frames a1 /\
  option_map localDescription (peerConnectionRef a2) = Some (Some "sdp-offer") /\
  option_map remoteDescription (peerConnectionRef a2) = Some (Some "sdp-answer") /\
  option_map remoteDescription (peerConnectionRef b1) = Some (Some "sdp-offer") /\
  option_map localDescription (peerConnectionRef b1) = Some (Some "sdp-answer").
Proof.
  apply (@negotiation_round_trip willing willing (opened u1_connecting) u2_mounted
           (mkWebSocket OPEN []) (mkWebSocket OPEN []) camera
           "sdp-offer" "sdp-answer"); reflexivity.
Defined.

(** A gathered ICE candidate reaches a peer: on an open socket the page
    sends one webrtc_ice frame with the candidate (and nothing at the end of
    gathering, when the candidate is null); a peer that holds a peer
    connection hands the relayed candidate to [addIceCandidate], and keeps it
    when the browser accepts it. *)
Theorem ice_candidate_reaches_peer
    (P : Platform) (a b : State) (ws : WebSocket) (pc : PeerConnection)
    (c : Candidate) :
  wsRef a = Some ws ->
  readyState ws = OPEN ->
  peerConnectionRef b = Some pc ->
  plat_addIceCandidate P c = Ok tt ->
  let m := OWebrtcIce c (userId a) (sessionId a) in
  let a' := exec (onicecandidate (Some c)) a in
  let b' := exec (handleWebSocketMessage P (wire m)) b in
  frames a' = frames a ++ [m] /\
  onicecandidate None a = (Ok tt, a) /\
  option_map candidates (peerConnectionRef b') = Some (candidates pc ++ [c]) /\
  trace b' = trace b ++ [EvAddIceCandidate c] /\
  frames b' = frames b.
Proof.
  intros Hws Hopen Hpc Hadd m a' b'. subst m a' b'.
  destruct a, b, ws; simpl in *; subst.
  unfold onicecandidate, handleWebSocketMessage, handleIceCandidate,
    pc_addIceCandidate, wire. crunch. rewrite Hadd. crunch. repeat split.
Qed.

Lemma ice_candidate_reaches_peer_witness :
  let a := opened u1_connecting in
  let b := exec (handleWebSocketMessage willing (WebrtcOffer "sdp-offer" "u1"))
             u2_mounted in
  let m := OWebrtcIce "candidate-1" (userId a) (sessionId a) in
  let a' := exec (onicecandidate (Some "candidate-1")) a in
  let b' := exec (handleWebSocketMessage willing (wire m)) b in
  frames a' = frames a ++ [m] /\
  onicecandidate None a = (Ok tt, a) /\
  option_map candidates (peerConnectionRef b')
  = Some (candidates (mkPC (Some "sdp-offer") (Some "sdp-answer") [] [] false)
          ++ ["candidate-1"]) /\
  trace b' = trace b ++ [EvAddIceCandidate "candidate-1"] /\
  frames b' = frames b.
Proof.
  apply (@ice_candidate_reaches_peer willing (opened u1_connecting) _
           (mkWebSocket OPEN []) _ "candidate-1"); reflexivity.
Defined.

(** A webrtc_answer frame is sent only when all three steps before it
    succeeded: when setting the remote description, creating the answer or
    setting the local description fails, no frame is handed to the socket and
    the failure ends as an unhandled rejection; in every case the message
    handler itself returns normally. *)
Theorem answer_only_after_all_steps
    (P : Platform) (s : State) (offer : SDP) (uid : string) :
  let s' := exec (handleWebSocketMessage P (WebrtcOffer offer uid)) s in
  eval (handleWebSocketMessage P (WebrtcOffer offer uid)) s = Ok tt /\
  match answer_failure P offer with
  | Some e =>
      frames s' = frames s /\
      exists before, trace s' = before ++ [EvUnhandledRejection e]
  | None =>
      frames s' = frames s \/
      exists answer,
        plat_createAnswer P = Ok answer /\
        frames s' = frames s ++ [OWebrtcAnswer answer (userId s) (sessionId s)]
  end.
Proof.
  destruct s.
  unfold handleWebSocketMessage, handleOffer, pc_setRemoteDescription,
    pc_createAnswer, pc_setLocalDescription, answer_failure.
  destruct peerConnectionRef0 as [pc |]; crunch;
    (destruct (plat_setRemoteDescription P offer) as [[] | e1]; crunch;
     [| split; [reflexivity | split; [reflexivity | eexists; reflexivity]]]);
    (destruct (plat_createAnswer P) as [answer | e2]; crunch;
     [| split; [reflexivity | split; [reflexivity | eexists; reflexivity]]]);
    (destruct (plat_setLocalDescription P answer) as [[] | e3]; crunch;
     [| split; [reflexivity | split; [reflexivity | eexists; reflexivity]]]);
    (destruct wsRef0 as [[[] sent0] |]; crunch; split; try reflexivity;
     first [ left; reflexivity
           | right; exists answer; split; reflexivity ]).
Qed.

(** ** More on media *)

Lemma forEach_stop (l : list MediaTrack) (s : State) :
  forEach l (fun t => emit (EvTrackStop t)) s
  = (Ok tt, set_trace (trace s ++ map EvTrackStop l) s).
Proof.
  revert s. induction l as [| t l IH]; intro s.
  - destruct s. crunch. simpl. now rewrite app_nil_r.
  - cbn [forEach]. erewrite bind_ok; [| reflexivity]. rewrite IH.
    destruct s. crunch. simpl. now rewrite <- app_assoc.
Qed.

(** [localStreamRef.current?.getXTracks().forEach(track => track.stop())] *)
Lemma stopLocalTracks_exact (sel : MediaTrack -> bool) (s : State) :
  stopLocalTracks sel s
  = (Ok tt,
     match localStreamRef s with
     | None => s
     | Some st =>
         set_localStreamRef
           (Some (mkStream (stream_id st)
                    (map (fun t => if sel t then stop t else t) (tracks st))))
           (set_trace (trace s ++ map EvTrackStop (filter sel (tracks st))) s)
     end).
Proof.
  unfold stopLocalTracks. erewrite bind_ok; [| reflexivity].
  destruct (localStreamRef s) as [st |] eqn:Hst; [| reflexivity].
  erewrite bind_ok; [| apply forEach_stop]. reflexivity.
Qed.

Lemma stop_video_keeps_audio (l : list MediaTrack) :
  filter is_audio (map (fun t => if is_video t then stop t else t) l)
  = filter is_audio l.
Proof.
  induction l as [| [[] lbl e] l IH]; simpl; [reflexivity | exact IH |].
  now rewrite IH.
Qed.

Lemma stop_audio_keeps_video (l : list MediaTrack) :
  filter is_video (map (fun t => if is_audio t then stop t else t) l)
  = filter is_video l.
Proof.
  induction l as [| [[] lbl e] l IH]; simpl; [reflexivity | | exact IH].
  now rewrite IH.
Qed.

Lemma stopped_all_ended (sel : MediaTrack -> bool) (l : list MediaTrack) :
  (forall t, sel (stop t) = sel t) ->
  Forall (fun t => ended t = true)
    (filter sel (map (fun t => if sel t then stop t else t) l)).
Proof.
  intro Hsel. induction l as [| t l IH]; simpl; [constructor |].
  destruct (sel t) eqn:Ht.
  - rewrite Hsel, Ht. constructor; [reflexivity | exact IH].
  - rewrite Ht. exact IH.
Qed.

(** Turning the camera off stops the video tracks of the local stream, each
    once, and nothing else: audio tracks are as they were, the peer
    connection and the socket are not touched (the peer is not told), no
    browser operation is awaited, and the local video element is cleared. *)
Theorem video_disable_stops_video_only (P : Platform) (s : State) :
  isVideoOn s = true ->
  let s' := exec (toggleVideo P) s in
  let before := match localStreamRef s with Some st => tracks st | None => [] end in
  let after := match localStreamRef s' with Some st => tracks st | None => [] end in
  eval (toggleVideo P) s = Ok tt /\
  isVideoOn s' = false /\
  filter is_audio after = filter is_audio before /\
  Forall (fun t => ended t = true) (filter is_video after) /\
  trace s' = trace s ++ map EvTrackStop (filter is_video before)
             ++ [EvSetIsVideoOn false] /\
  option_map srcObject (localVideoRef s')
  = option_map (fun _ => None) (localVideoRef s) /\
  signalling_view s' = signalling_view s /\
  isAudioOn s' = isAudioOn s.
Proof.
  intros Hon s' before after. subst s' before after.
  destruct s; simpl in *; subst.
  unfold exec, eval, toggleVideo, try_catch.
  erewrite bind_ok; [| reflexivity]. cbn [isVideoOn].
  erewrite bind_ok; [| apply stopLocalTracks_exact].
  unfold setLocalVideoSrc, signalling_view.
  destruct localStreamRef0 as [[id l] |], localVideoRef0 as [v |]; crunch; simpl;
    rewrite ?stop_video_keeps_audio, <- ?app_assoc;
    repeat split; try reflexivity;
    first [apply stopped_all_ended; reflexivity | constructor].
Qed.

Lemma video_disable_stops_video_only_witness :
  let s := exec (toggleVideo willing) u2_mounted in
  let s' := exec (toggleVideo willing) s in
  let before := match localStreamRef s with Some st => tracks st | None => [] end in
  let after := match localStreamRef s' with Some st => tracks st | None => [] end in
  eval (toggleVideo willing) s = Ok tt /\
  isVideoOn s' = false /\
  filter is_audio after = filter is_audio before /\
  Forall (fun t => ended t = true) (filter is_video after) /\
  trace s' = trace s ++ map EvTrackStop (filter is_video before)
             ++ [EvSetIsVideoOn false] /\
  option_map srcObject (localVideoRef s')
  = option_map (fun _ => None) (localVideoRef s) /\
  signalling_view s' = signalling_view s /\
  isAudioOn s' = isAudioOn s.
Proof.
  apply (@video_disable_stops_video_only willing
           (exec (toggleVideo willing) u2_mounted)).
  reflexivity.
Defined.

(** Muting stops the audio tracks of the local stream, each once, and
    nothing else: video tracks are as they were, the local video element, the
    peer connection and the socket are not touched. *)
Theorem audio_disable_stops_audio_only (P : Platform) (s : State) :
  isAudioOn s = true ->
  let s' := exec (toggleAudio P) s in
  let before := match localStreamRef s with Some st => tracks st | None => [] end in
  let after := match localStreamRef s' with Some st => tracks st | None => [] end in
  eval (toggleAudio P) s = Ok tt /\
  isAudioOn s' = false /\
  filter is_video after = filter is_video before /\
  Forall (fun t => ended t = true) (filter is_audio after) /\
  trace s' = trace s ++ map EvTrackStop (filter is_audio before)
             ++ [EvSetIsAudioOn false] /\
  localVideoRef s' = localVideoRef s /\
  signalling_view s' = signalling_view s /\
  isVideoOn s' = isVideoOn s.
Proof.
  intros Hon s' before after. subst s' before after.
  destruct s; simpl in *; subst.
  unfold exec, eval, toggleAudio, try_catch.
  erewrite bind_ok; [| reflexivity]. cbn [isAudioOn].
  erewrite bind_ok; [| apply stopLocalTracks_exact].
  unfold signalling_view.
  destruct localStreamRef0 as [[id l] |]; crunch; simpl;
    rewrite ?stop_audio_keeps_video, <- ?app_assoc;
    repeat split; try reflexivity;
    first [apply stopped_all_ended; reflexivity | constructor].
Qed.

Lemma audio_disable_stops_audio_only_witness :
  let s := exec (toggleAudio willing) (exec (toggleVideo willing) u2_mounted) in
  let s' := exec (toggleAudio willing) s in
  let before := match localStreamRef s with Some st => tracks st | None => [] end in
  let after := match localStreamRef s' with Some st => tracks st | None => [] end in
  eval (toggleAudio willing) s = Ok tt /\
  isAudioOn s' = false /\
  filter is_video after = filter is_video before /\
  Forall (fun t => ended t = true) (filter is_audio after) /\
  trace s' = trace s ++ map EvTrackStop (filter is_audio before)
             ++ [EvSetIsAudioOn false] /\
  localVideoRef s' = localVideoRef s /\
  signalling_view s' = signalling_view s /\
  isVideoOn s' = isVideoOn s.
Proof.
  apply (@audio_disable_stops_audio_only willing
           (exec (toggleAudio willing) (exec (toggleVideo willing) u2_mounted))).
  reflexivity.
Defined.

(** When acquiring the microphone fails while audio is off, [toggleAudio]
    returns normally and the page is as it was, apart from the trace: the
    request, the error toast and the console entry. *)
Theorem audio_enable_failure_leaves_state (P : Platform) (s : State) (e : Exn) :
  isAudioOn s = false ->
  plat_getUserMedia P false true = Throw e ->
  toggleAudio P s
  = (Ok tt,
     set_trace (trace s ++ [EvGetUserMedia false true;
                            EvToast ToastError "Failed to access microphone";
                            EvConsoleError e]) s).
Proof.
  intros Hoff Hfail. destruct s; simpl in *; subst.
  unfold toggleAudio, getUserMedia.
  destruct localStreamRef0 as [st |]; crunch; rewrite Hfail; crunch;
    now rewrite <- !app_assoc.
Qed.

Lemma audio_enable_failure_leaves_state_witness :
  toggleAudio denied u2_mounted
  = (Ok tt,
     set_trace (trace u2_mounted
                ++ [EvGetUserMedia false true;
                    EvToast ToastError "Failed to access microphone";
                    EvConsoleError MediaAccessError]) u2_mounted).
Proof.
  apply (@audio_enable_failure_leaves_state denied u2_mounted MediaAccessError);
    reflexivity.
Defined.

(** Unmuting asks for an audio-only stream.  With no local stream yet that
    stream becomes the local stream; otherwise the local stream keeps its
    identity and its tracks, and the audio tracks of the new stream are
    appended to it.  The video flag and the local video element are as
    before. *)
Theorem audio_enable_joins_local_stream
    (P : Platform) (s : State) (audioStream : MediaStream) :
  isAudioOn s = false ->
  plat_getUserMedia P false true = Ok audioStream ->
  let s' := exec (toggleAudio P) s in
  isAudioOn s' = true /\
  localStreamRef s'
  = Some (match localStreamRef s with
          | None => audioStream
          | Some st =>
              mkStream (stream_id st)
                (tracks st ++ filter is_audio (tracks audioStream))
          end) /\
  trace s' = trace s ++ [EvGetUserMedia false true; EvSetIsAudioOn true] /\
  isVideoOn s' = isVideoOn s /\
  localVideoRef s' = localVideoRef s.
Proof.
  intros Hoff Hok s'. subst s'. destruct s; simpl in *; subst.
  unfold toggleAudio, getUserMedia.
  destruct localStreamRef0 as [st |]; crunch; rewrite Hok; crunch;
    rewrite <- !app_assoc; repeat split.
Qed.

Lemma audio_enable_joins_local_stream_witness :
  let s := exec (toggleVideo willing) u2_mounted in
  let s' := exec (toggleAudio willing) s in
  isAudioOn s' = true /\
  localStreamRef s'
  = Some (match localStreamRef s with
          | None => microphone
          | Some st =>
              mkStream (stream_id st)
                (tracks st ++ filter is_audio (tracks microphone))
          end) /\
  trace s' = trace s ++ [EvGetUserMedia false true; EvSetIsAudioOn true] /\
  isVideoOn s' = isVideoOn s /\
  localVideoRef s' = localVideoRef s.
Proof.
  apply (@audio_enable_joins_local_stream willing
           (exec (toggleVideo willing) u2_mounted) microphone); reflexivity.
Defined.

Lemma toggleAudio_keeps_signalling (P : Platform) :
  keeps signalling_view (toggleAudio P).
Proof. frame_all. Qed.

(** The microphone toggle never signals: in any state and whatever the
    browser answers, [toggleAudio] calls nothing on the peer connection (no
    track is added to it, its descriptions and candidates stay), sends
    nothing, and constructs no peer connection. *)
Theorem audio_toggle_never_signals (P : Platform) (s : State) :
  let s' := exec (toggleAudio P) s in
  signalling_view s' = signalling_view s /\
  constructed s' = constructed s.
Proof.
  intro s'. subst s'. split; [apply toggleAudio_keeps_signalling |].
  unfold toggleAudio, getUserMedia, exec.
  destruct s; unfold constructed; simpl in *.
  destruct isAudioOn0.
  - unfold try_catch. erewrite bind_ok; [| reflexivity]. cbn [isAudioOn].
    erewrite bind_ok; [| apply stopLocalTracks_exact].
    destruct localStreamRef0 as [[id l] |]; crunch;
      rewrite ?filter_app, ?length_app; simpl;
      rewrite ?Nat.add_0_r; try reflexivity.
    induction (filter is_audio l) as [| t l' IH]; simpl; [lia | exact IH].
  - destruct localStreamRef0 as [st |]; crunch;
      destruct (plat_getUserMedia P false true) as [audioStream | e]; crunch;
      rewrite ?filter_app, ?length_app; simpl; lia.
Qed.

(** The state [cleanupMedia] leaves, field by field. *)
Lemma cleanupMedia_exact (s : State) :
  cleanupMedia s
  = (Ok tt,
     mkState (editorRef s) (wsRef s) (localVideoRef s) (remoteVideoRef s)
       (option_map (fun pc => mkPC (remoteDescription pc) (localDescription pc)
                                (candidates pc) (senders pc) true)
          (peerConnectionRef s))
       (option_map (fun st => mkStream (stream_id st) (map stop (tracks st)))
          (localStreamRef s))
       (isRemoteChangeRef s) (code s) (language s) (participants s)
       (isVideoOn s) (isAudioOn s) (isConnected s) (userId s) (username s)
       (sessionId s) (timers s)
       (trace s
        ++ match localStreamRef s with
           | Some st => map EvTrackStop (tracks st)
           | None => []
           end
        ++ (if is_some (peerConnectionRef s) then [EvPcClose] else []))).
Proof.
  destruct s. unfold cleanupMedia. erewrite bind_ok; [| reflexivity].
  cbn [localStreamRef peerConnectionRef].
  destruct localStreamRef0 as [[id l] |].
  - erewrite bind_ok;
      [| erewrite bind_ok; [| apply forEach_stop]; reflexivity].
    destruct peerConnectionRef0 as [pc |]; crunch; simpl;
      now rewrite <- ?app_assoc, ?app_nil_r.
  - erewrite bind_ok; [| reflexivity].
    destruct peerConnectionRef0 as [pc |]; crunch; simpl;
      now rewrite ?app_nil_r.
Qed.

(** Clean-up on leaving releases the media: it never throws; afterwards
    every track of the local stream has been stopped and the peer connection,
    if there is one, is closed with its descriptions untouched; the refs are
    not cleared, the flags and the socket are as before; and a second
    clean-up changes nothing but the trace. *)
Theorem cleanup_releases_media (s : State) :
  let s' := exec cleanupMedia s in
  eval cleanupMedia s = Ok tt /\
  Forall (fun t => ended t = true)
    (match localStreamRef s' with Some st => tracks st | None => [] end) /\
  option_map pc_closed (peerConnectionRef s')
  = option_map (fun _ => true) (peerConnectionRef s) /\
  option_map (fun pc => (remoteDescription pc, localDescription pc))
    (peerConnectionRef s')
  = option_map (fun pc => (remoteDescription pc, localDescription pc))
      (peerConnectionRef s) /\
  is_some (localStreamRef s') = is_some (localStreamRef s) /\
  (isVideoOn s', isAudioOn s', wsRef s') = (isVideoOn s, isAudioOn s, wsRef s) /\
  set_trace [] (exec cleanupMedia s') = set_trace [] s'.
Proof.
  intro s'. subst s'. unfold exec, eval. rewrite !cleanupMedia_exact. cbn [fst snd].
  destruct s. unfold set_trace. simpl.
  destruct localStreamRef0 as [[id l] |], peerConnectionRef0 as [pc |]; simpl;
    repeat split; try constructor;
    try (apply Forall_forall; intros t Ht; apply in_map_iff in Ht;
         destruct Ht as (t0 & <- & _); reflexivity);
    rewrite ?map_map; reflexivity.
Qed.

(** Camera on, then off: the video flag is off again, the video tracks of
    the acquired stream have been stopped, each once, while the peer
    connection stays open with the local offer, and the offer is the only
    frame that was sent: the peer is not told that the camera went off. *)
Theorem camera_on_then_off
    (P P' : Platform) (s : State) (ws : WebSocket) (stream : MediaStream) (offer : SDP) :
  isVideoOn s = false ->
  peerConnectionRef s = None ->
  wsRef s = Some ws ->
  readyState ws = OPEN ->
  plat_getUserMedia P true (isAudioOn s) = Ok stream ->
  (forall t, In t (tracks stream) -> plat_addTrack P t = Ok tt) ->
  plat_createOffer P = Ok offer ->
  plat_setLocalDescription P offer = Ok tt ->
  let s1 := exec (toggleVideo P) s in
  let s2 := exec (toggleVideo P') s1 in
  isVideoOn s2 = false /\
  localStreamRef s2
  = Some (mkStream (stream_id stream)
            (map (fun t => if is_video t then stop t else t) (tracks stream))) /\
  trace s2 = trace s1 ++ map EvTrackStop (filter is_video (tracks stream))
             ++ [EvSetIsVideoOn false] /\
  option_map pc_view (peerConnectionRef s2)
  = Some (None, Some offer, [], length (tracks stream), false) /\
  frames s2 = frames s ++ [OWebrtcOffer offer (userId s) (sessionId s)].
Proof.
  intros Hoff Hpc Hws Hopen Hmedia Htracks Hoffer Hlocal s1 s2. subst s1 s2.
  unfold exec.
  rewrite (@toggleVideo_enable_exact P s ws stream offer
             Hoff Hpc Hws Hopen Hmedia Htracks Hoffer Hlocal). cbn [snd].
  destruct s, ws, stream as [id l]; simpl in *; subst.
  unfold toggleVideo, try_catch.
  erewrite bind_ok; [| reflexivity]. cbn [isVideoOn].
  erewrite bind_ok; [| apply stopLocalTracks_exact].
  unfold setLocalVideoSrc, pc_view.
  destruct localVideoRef0 as [v |]; crunch; simpl;
    rewrite <- ?app_assoc; repeat split.
Qed.

Lemma camera_on_then_off_witness :
  let s1 := exec (toggleVideo willing) u2_mounted in
  let s2 := exec (toggleVideo denied) s1 in
  isVideoOn s2 = false /\
  localStreamRef s2
  = Some (mkStream (stream_id camera)
            (map (fun t => if is_video t then stop t else t) (tracks camera))) /\
  trace s2 = trace s1 ++ map EvTrackStop (filter is_video (tracks camera))
             ++ [EvSetIsVideoOn false] /\
  option_map pc_view (peerConnectionRef s2)
  = Some (None, Some "sdp-offer", [], length (tracks camera), false) /\
  frames s2 = frames u2_mounted
              ++ [OWebrtcOffer "sdp-offer" (userId u2_mounted) (sessionId u2_mounted)].
Proof.
  apply (@camera_on_then_off willing denied u2_mounted (mkWebSocket OPEN [])
           camera "sdp-offer"); reflexivity.
Defined.

(** ** The socket address *)

(** The socket always uses the secure scheme: an "https" and an "http"
    backend address both give a "wss" address with the rest of the address
    unchanged, the result never starts with "http", and an address already
    rewritten is left alone. *)
Theorem socket_scheme_is_wss (rest b : string) :
  WS_URL ("https://" ++ rest) = ("wss://" ++ rest)%string /\
  WS_URL ("http://" ++ rest) = ("wss://" ++ rest)%string /\
  prefix "http" (WS_URL b) = false /\
  WS_URL (WS_URL b) = WS_URL b.
Proof.
  assert (H : prefix "http" (WS_URL b) = false).
  { unfold WS_URL. destruct (prefix "http" b) eqn:Hb; [reflexivity | exact Hb]. }
  repeat split; try reflexivity; try exact H.
  unfold WS_URL at 1. now rewrite H.
Qed.

(** ** The landing page *)

Lemma dropWhile_split (p : N -> bool) (l : Landing.JsString) :
  exists pre, l = pre ++ Landing.dropWhile p l /\ forallb p pre = true.
Proof.
  induction l as [| c l (pre & Hl & Hpre)]; simpl.
  - now exists [].
  - destruct (p c) eqn:Hc.
    + exists (c :: pre). simpl. rewrite Hc, Hpre. split; [now f_equal | reflexivity].
    + now exists [].
Qed.

Lemma dropWhile_head (p : N -> bool) (l r : Landing.JsString) (c : N) :
  Landing.dropWhile p l = c :: r -> p c = false.
Proof.
  induction l as [| d l IH]; simpl; [discriminate |].
  destruct (p d) eqn:Hd; [exact IH |].
  intro H. injection H as <- _. exact Hd.
Qed.

Lemma dropWhile_nil (p : N -> bool) (l : Landing.JsString) :
  Landing.dropWhile p l = [] <-> forallb p l = true.
Proof.
  induction l as [| d l IH]; simpl; [tauto |].
  destruct (p d); simpl; [exact IH |]. split; discriminate.
Qed.

Lemma forallb_rev (p : N -> bool) (l : Landing.JsString) :
  forallb p (rev l) = forallb p l.
Proof.
  induction l as [| c l IH]; simpl; [reflexivity |].
  rewrite forallb_app, IH. simpl. rewrite andb_true_r. apply andb_comm.
Qed.

(** What [trim] removes is white space at both ends, and only that. *)
Lemma trim_decompose (l : Landing.JsString) :
  exists pre post,
    l = pre ++ Landing.trim l ++ post /\
    Landing.blank pre = true /\ Landing.blank post = true.
Proof.
  unfold Landing.trim, Landing.blank.
  destruct (dropWhile_split Landing.isWhiteSpace l) as (pre & Hl & Hpre).
  destruct (dropWhile_split Landing.isWhiteSpace
              (rev (Landing.dropWhile Landing.isWhiteSpace l)))
    as (pre' & Hd & Hpre').
  exists pre, (rev pre'). repeat split.
  - rewrite <- rev_app_distr, <- Hd, rev_involutive. exact Hl.
  - exact Hpre.
  - now rewrite forallb_rev.
Qed.

Lemma trim_nil (l : Landing.JsString) :
  Landing.trim l = [] <-> Landing.blank l = true.
Proof.
  unfold Landing.trim, Landing.blank. split.
  - intro H. apply (f_equal (@rev N)) in H. rewrite rev_involutive in H.
    simpl in H. apply dropWhile_nil in H. rewrite forallb_rev in H.
    destruct (Landing.dropWhile Landing.isWhiteSpace l) as [| c r] eqn:Hd.
    + now apply dropWhile_nil.
    + apply dropWhile_head in Hd. simpl in H. now rewrite Hd in H.
  - intro H. apply dropWhile_nil in H. now rewrite H.
Qed.

Lemma trim_ends (l : Landing.JsString) (c : N) :
  (hd_error (Landing.trim l) = Some c -> Landing.isWhiteSpace c = false) /\
  (hd_error (rev (Landing.trim l)) = Some c -> Landing.isWhiteSpace c = false).
Proof.
  split.
  - intro Hc.
    destruct (dropWhile_split Landing.isWhiteSpace
                (rev (Landing.dropWhile Landing.isWhiteSpace l)))
      as (pre' & Hd & _).
    apply (f_equal (@rev N)) in Hd. rewrite rev_involutive, rev_app_distr in Hd.
    fold (Landing.trim l) in Hd.
    destruct (Landing.trim l) as [| c0 r]; [discriminate |].
    injection Hc as ->. simpl in Hd.
    now apply dropWhile_head in Hd.
  - unfold Landing.trim. rewrite rev_involutive. intro Hc.
    destruct (Landing.dropWhile Landing.isWhiteSpace
                (rev (Landing.dropWhile Landing.isWhiteSpace l)))
      as [| c0 r] eqn:Hd; [discriminate |].
    injection Hc as ->. now apply dropWhile_head in Hd.
Qed.

(** Joining with an empty or all-white-space code is refused: an error
    toast is shown, the page does not navigate and the joining flag stays as
    it was. *)
Theorem landing_blank_code_rejected (s : Landing.State) :
  Landing.blank (Landing.sessionCode s) = true ->
  Landing.joinSession s
  = Landing.mkState (Landing.sessionCode s) (Landing.isCreating s)
      (Landing.isJoining s)
      (Landing.trace s ++ [Landing.ToastError "Please enter a session code"]) /\
  Landing.navigations (Landing.joinSession s) = Landing.navigations s.
Proof.
  intro Hblank. apply trim_nil in Hblank.
  unfold Landing.joinSession, Landing.navigations. rewrite Hblank. simpl.
  split; [reflexivity |]. rewrite flat_map_app. simpl. apply app_nil_r.
Qed.

Lemma landing_blank_code_rejected_witness :
  let s := Landing.mkState [32; 9; 160; 8232]%N false false [] in
  Landing.joinSession s
  = Landing.mkState (Landing.sessionCode s) (Landing.isCreating s)
      (Landing.isJoining s)
      (Landing.trace s ++ [Landing.ToastError "Please enter a session code"]) /\
  Landing.navigations (Landing.joinSession s) = Landing.navigations s.
Proof.
  apply (@landing_blank_code_rejected
           (Landing.mkState [32; 9; 160; 8232]%N false false [])).
  reflexivity.
Defined.

(** Joining with any other code navigates to "/session/" followed by the
    code with the white space at its two ends removed and everything between
    kept: the part of the route after the prefix is not empty and neither
    starts nor ends with white space; the joining flag is set. *)
Theorem landing_join_route_is_trimmed (s : Landing.State) :
  Landing.blank (Landing.sessionCode s) = false ->
  exists pre code post,
    Landing.sessionCode s = pre ++ code ++ post /\
    Landing.blank pre = true /\ Landing.blank post = true /\
    code <> [] /\
    (forall c, hd_error code = Some c -> Landing.isWhiteSpace c = false) /\
    (forall c, hd_error (rev code) = Some c -> Landing.isWhiteSpace c = false) /\
    Landing.joinSession s
    = Landing.mkState (Landing.sessionCode s) (Landing.isCreating s) true
        (Landing.trace s
         ++ [Landing.SetIsJoining true;
             Landing.Navigate (Landing.units "/session/" ++ code)]).
Proof.
  intro Hblank.
  destruct (trim_decompose (Landing.sessionCode s)) as (pre & post & Hl & Hpre & Hpost).
  exists pre, (Landing.trim (Landing.sessionCode s)), post.
  assert (Hne : Landing.trim (Landing.sessionCode s) <> []).
  { intro H. apply trim_nil in H. congruence. }
  repeat split; try assumption.
  - intros c. apply trim_ends.
  - intros c. apply trim_ends.
  - unfold Landing.joinSession, Landing.session_route.
    destruct (Landing.trim (Landing.sessionCode s)); [now elim Hne | reflexivity].
Qed.

Lemma landing_join_route_is_trimmed_witness :
  let s := Landing.mkState (Landing.units "  abc 123 ") false false [] in
  exists pre code post,
    Landing.sessionCode s = pre ++ code ++ post /\
    Landing.blank pre = true /\ Landing.blank post = true /\
    code <> [] /\
    (forall c, hd_error code = Some c -> Landing.isWhiteSpace c = false) /\
    (forall c, hd_error (rev code) = Some c -> Landing.isWhiteSpace c = false) /\
    Landing.joinSession s
    = Landing.mkState (Landing.sessionCode s) (Landing.isCreating s) true
        (Landing.trace s
         ++ [Landing.SetIsJoining true;
             Landing.Navigate (Landing.units "/session/" ++ code)]).
Proof.
  apply (@landing_join_route_is_trimmed
           (Landing.mkState (Landing.units "  abc 123 ") false false [])).
  reflexivity.
Defined.

(** Creating a session always ends with the creating flag off (the
    [finally] block), whether the request succeeded or not; the page
    navigates, once, exactly when the request returned data, to the route of
    the identifier it carries ("/session/undefined" when it carries none);
    otherwise an error toast is shown. *)
Theorem landing_create_settles (response : Result Landing.Data) (s : Landing.State) :
  let s' := Landing.createSession response s in
  Landing.isCreating s' = false /\
  Landing.isJoining s' = Landing.isJoining s /\
  Landing.sessionCode s' = Landing.sessionCode s /\
  Landing.navigations s'
  = Landing.navigations s
    ++ match response with
       | Ok (Landing.WithId session_id) => [Landing.session_route session_id]
       | _ => []
       end /\
  match response with
  | Ok (Landing.WithId _) => True
  | _ => In (Landing.ToastError "Failed to create session") (Landing.trace s')
  end.
Proof.
  unfold Landing.createSession, Landing.navigations.
  destruct response as [[| session_id] | e]; simpl;
    rewrite !flat_map_app; simpl; rewrite ?app_nil_r;
    repeat split; try reflexivity;
    rewrite !in_app_iff; simpl; tauto.
Qed.
